(** * svgcleaner-gui: the job builder, the Start validation and the result sink

    A shallow embedding of the coordination logic of [src/mainwindow.cpp]:
    [genOutputPath], [genCleanData], [resetTreeData], [MainWindow::onStart]
    and [MainWindow::onResultReadyAt], with the properties the
    specification states about them.

    Conventions of the model.
    - A [QString] is a [string]; the [QString] and [QFileInfo]/[QDir]
      members the code calls are written out in [Module QStr] and
      [Module QtPath].  The path functions are those of Qt on a POSIX
      system, on absolute and normalised paths, which is the form in which
      the tree holds its paths (the file dialog and folder scan hand out
      absolute paths).
    - A [TreeItem *] is the position of the item in the tree: the list of
      child indices that leads to it from the root item.
    - By-reference parameters ([rootFolder], [data]) are threaded as
      explicit state. *)

From Stdlib Require Import String Ascii ZArith List Lia Permutation.
From stdpp Require Import base option list strings gmap.

Set Warnings "-register-all".

Open Scope string_scope.
Open Scope list_scope.

Abbreviation QString := string.

(** ** QString members used by the code *)
Module QStr.

Definition isEmpty (s : QString) : bool :=
  match s with
  | EmptyString => true
  | String _ _ => false
  end.

(** The last character, if any. *)
Fixpoint back (s : QString) : option ascii :=
  match s with
  | EmptyString => None
  | String a EmptyString => Some a
  | String _ r => back r
  end.

(** [QString::endsWith(QChar)] *)
Definition endsWith (s : QString) (c : ascii) : bool :=
  match back s with
  | Some a => Ascii.eqb a c
  | None => false
  end.

(** [QString::startsWith(QChar)] *)
Definition startsWith (s : QString) (c : ascii) : bool :=
  match s with
  | EmptyString => false
  | String a _ => Ascii.eqb a c
  end.

(** [QString::contains(QChar)] *)
Fixpoint contains (s : QString) (c : ascii) : bool :=
  match s with
  | EmptyString => false
  | String a r => Ascii.eqb a c || contains r c
  end.

(** [QString::left(n)] *)
Definition left (n : nat) (s : QString) : QString := String.substring 0 n s.

(** [QString::chop(n)]: removes [n] characters from the end; the result is
    empty when [n] is at least the size. *)
Definition chop (n : nat) (s : QString) : QString :=
  left (String.length s - n) s.

(** Cuts [s] at the last occurrence of [sep]: the text before it and the
    text after it; [None] when [sep] does not occur
    ([QString::lastIndexOf] with [left] and [mid]). *)
Fixpoint cutLast (sep : ascii) (s : QString) : option (QString * QString) :=
  match s with
  | EmptyString => None
  | String a r =>
      match cutLast sep r with
      | Some (b, e) => Some (String a b, e)
      | None => if Ascii.eqb a sep then Some (EmptyString, r) else None
      end
  end.

(** [QString::split(sep, KeepEmptyParts)] *)
Fixpoint split (sep : ascii) (s : QString) : list QString :=
  match s with
  | EmptyString => [EmptyString]
  | String a r =>
      if Ascii.eqb a sep then EmptyString :: split sep r
      else match split sep r with
           | h :: t => String a h :: t
           | [] => [String a EmptyString]
           end
  end.

(** [QString::split(sep, SkipEmptyParts)] *)
Definition splitSkipEmpty (sep : ascii) (s : QString) : list QString :=
  filter (fun p => isEmpty p = false) (split sep s).

(** [QStringList::join(sep)] *)
Fixpoint join (sep : QString) (l : list QString) : QString :=
  match l with
  | [] => EmptyString
  | [x] => x
  | x :: r => x +:+ sep +:+ join sep r
  end.

(** [n] copies of [s] in a row. *)
Fixpoint repeated (n : nat) (s : QString) : QString :=
  match n with
  | O => EmptyString
  | S k => s +:+ repeated k s
  end.

End QStr.

(** ** QFileInfo and QDir members used by the code *)
Module QtPath.
Import QStr.

(** [QDir::separator()] *)
Definition separator : QString := "/".

Definition isRelativePath (p : QString) : bool := negb (startsWith p "/").

(** [QFileInfo::fileName()]: what follows the last slash. *)
Definition fileName (p : QString) : QString :=
  match cutLast "/" p with
  | Some (_, f) => f
  | None => p
  end.

(** [QFileSystemEntry::path()]: what precedes the last slash; the root for
    a file of the root directory, and [.] when there is no slash. *)
Definition entryPath (p : QString) : QString :=
  match cutLast "/" p with
  | None => "."
  | Some (EmptyString, _) => "/"
  | Some (d, _) => d
  end.

(** [QFileInfo::absolutePath()] of an absolute, normalised path. *)
Definition absolutePath (p : QString) : QString := entryPath p.

(** [QFileInfo::completeBaseName()]: the file name up to its last dot. *)
Definition completeBaseName (p : QString) : QString :=
  let f := fileName p in
  match cutLast "." f with
  | Some (b, _) => b
  | None => f
  end.

(** The [QDir] constructor drops one trailing slash of a path longer than
    the root. *)
Definition dirPath (p : QString) : QString :=
  if endsWith p "/" && (1 <? String.length p)%nat then chop 1 p else p.

(** [QDir::dirName()] *)
Definition dirName (dir : QString) : QString := fileName (dirPath dir).

(** The loop of [QDir::relativeFilePath] that skips the leading elements
    the directory and the file have in common. *)
Fixpoint skipCommon (d f : list QString) : list QString * list QString :=
  match d, f with
  | x :: d', y :: f' => if String.eqb x y then skipCommon d' f' else (d, f)
  | _, _ => (d, f)
  end.

(** [QDir::relativeFilePath(fileName)] *)
Definition relativeFilePath (dir file : QString) : QString :=
  if isRelativePath file || isRelativePath dir then file
  else
    let '(dirElts, fileElts) :=
      skipCommon (splitSkipEmpty "/" dir) (splitSkipEmpty "/" file) in
    let result := repeated (List.length dirElts) "../" +:+ join "/" fileElts in
    if isEmpty result then "." else result.

End QtPath.

(** ** Settings *)

(** [AppSettings::SavingMethod] *)
Inductive SavingMethod := SelectFolder | SameFolder | Overwrite.

(** [Compressor::Type]: no compressor, or one of the external tools. *)
Inductive CompressorType := CompressorNone | CompressorTool (name : QString).

Definition isCompressorNone (c : CompressorType) : bool :=
  match c with
  | CompressorNone => true
  | CompressorTool _ => false
  end.

(** The settings store, one field per [SettingKey] the code reads or
    writes. *)
Record AppSettings := mkAppSettings {
  WindowSize : Z * Z;
  SavingMethodKey : SavingMethod;
  OutputFolder : QString;
  FilePrefix : QString;
  FileSuffix : QString;
  UseCompression : bool;
  CompressorKey : QString;
  CompressionLevel : Z;
  CompressOnlySvgz : bool;
  Jobs : Z
}.

(** [method == AppSettings::Overwrite] *)
Definition isOverwrite (method : SavingMethod) : bool :=
  match method with
  | Overwrite => true
  | _ => false
  end.

(** ** Output path resolution *)

(** The [switch] of [genOutputPath]: the value of [outPath] before the SVGZ
    extension is removed. *)
Definition outPathOfMethod (settings : AppSettings)
    (outFolder rootFolder path : QString) (method : SavingMethod) : QString :=
  match method with
  | SelectFolder =>
      if QStr.isEmpty rootFolder then
        (outFolder +:+ QtPath.separator) +:+ QtPath.fileName path
      else
        (((outFolder +:+ QtPath.separator) +:+ QtPath.dirName rootFolder)
           +:+ QtPath.separator) +:+ QtPath.relativeFilePath rootFolder path
  | SameFolder =>
      (((((QtPath.absolutePath path +:+ QtPath.separator)
            +:+ FilePrefix settings) +:+ QtPath.completeBaseName path)
          +:+ FileSuffix settings) +:+ ".svg")
  | Overwrite => path
  end.

(** [genOutputPath].  The function opens the settings store itself in the
    [SameFolder] case; the store is the first argument here. *)
Definition genOutputPath (settings : AppSettings)
    (outFolder rootFolder path : QString) (method : SavingMethod) : QString :=
  let outPath := outPathOfMethod settings outFolder rootFolder path method in
  (* remove SVGZ extension *)
  if QStr.endsWith outPath "z" || QStr.endsWith outPath "Z"
  then QStr.chop 1 outPath
  else outPath.

(** ** The file tree *)

(** Modelled from the spec: the [Status] enumeration, declared outside the
    sources at hand.  It is the state of a tree item and the kind of a job
    result; the code names [Ok], [Warning] and [Error], the spec names the
    state of an item no result has come for [Pending]. *)
Inductive Status := Pending | Ok | Warning | Error.

(** [Qt::CheckState] *)
Inductive CheckState := Unchecked | PartiallyChecked | Checked.

Definition CheckState_eqb (a b : CheckState) : bool :=
  match a, b with
  | Unchecked, Unchecked | PartiallyChecked, PartiallyChecked
  | Checked, Checked => true
  | _, _ => false
  end.

(** Modelled from the spec: what [TreeItem::data()] returns, with the fields
    the code reads ([path], [outPath], [status], [statusText]) and those the
    setters it calls write.  Sizes are byte counts; the ratio is a number the
    cleaner computes and the window only copies. *)
Record TreeItemData := mkData {
  path : QString;
  outPath : QString;
  sizeBefore : Z;
  sizeAfter : Z;
  ratio : Z;
  status : Status;
  statusText : QString
}.

(** Modelled from the spec: a [TreeItem] with the members [genCleanData]
    and [resetTreeData] query. *)
Inductive TreeItem := TreeNode {
  data : TreeItemData;
  isEnabled : bool;
  checkState : CheckState;
  isFolder : bool;
  childrenList : list TreeItem
}.

(** A [TreeItem *]: the child indices from the root item down to the item. *)
Abbreviation TreeItemPtr := (list nat).

(** Dereferences a pointer below [t]. *)
Fixpoint itemAt (t : TreeItem) (ptr : TreeItemPtr) : option TreeItem :=
  match ptr with
  | [] => Some t
  | i :: rest =>
      match childrenList t !! i with
      | Some c => itemAt c rest
      | None => None
      end
  end.

Definition dataAt (t : TreeItem) (ptr : TreeItemPtr) : option TreeItemData :=
  data <$> itemAt t ptr.

(** Runs a mutation of the item's data on the item [ptr] points to. *)
Fixpoint updateItem (f : TreeItemData -> TreeItemData) (ptr : TreeItemPtr)
    (t : TreeItem) : TreeItem :=
  match ptr with
  | [] => TreeNode (f (data t)) (isEnabled t) (checkState t) (isFolder t)
            (childrenList t)
  | i :: rest =>
      TreeNode (data t) (isEnabled t) (checkState t) (isFolder t)
        (alter (updateItem f rest) i (childrenList t))
  end.

(** Modelled from the spec: the mutation hooks of [TreeItem] ([setStatus],
    [setStatusText], [setSizeBefore], [setSizeAfter], [setRatio],
    [setOutputPath]), whose class is not among the sources; each writes the
    one attribute it names. *)
Definition setStatus (s : Status) (d : TreeItemData) : TreeItemData :=
  mkData (path d) (outPath d) (sizeBefore d) (sizeAfter d) (ratio d) s (statusText d).
Definition setStatusText (m : QString) (d : TreeItemData) : TreeItemData :=
  mkData (path d) (outPath d) (sizeBefore d) (sizeAfter d) (ratio d) (status d) m.
Definition setSizeBefore (n : Z) (d : TreeItemData) : TreeItemData :=
  mkData (path d) (outPath d) n (sizeAfter d) (ratio d) (status d) (statusText d).
Definition setSizeAfter (n : Z) (d : TreeItemData) : TreeItemData :=
  mkData (path d) (outPath d) (sizeBefore d) n (ratio d) (status d) (statusText d).
Definition setRatio (r : Z) (d : TreeItemData) : TreeItemData :=
  mkData (path d) (outPath d) (sizeBefore d) (sizeAfter d) r (status d) (statusText d).
Definition setOutputPath (p : QString) (d : TreeItemData) : TreeItemData :=
  mkData (path d) p (sizeBefore d) (sizeAfter d) (ratio d) (status d) (statusText d).

(** Modelled from the spec: [TreeItem::resetCleanerData], not among the
    sources.  It returns the item to the Pending state with no status text,
    size-after, ratio or output path; the path and the size-before stay. *)
Definition resetCleanerData (d : TreeItemData) : TreeItemData :=
  mkData (path d) "" (sizeBefore d) 0 0 Pending "".

(** ** Jobs and job results *)

(** [Task::Config], with the fields the code assigns. *)
Record Config := mkConfig {
  inputPath : QString;
  outputPath : QString;
  treeItem : TreeItemPtr;
  args : list QString;
  compressorType : CompressorType;
  compressionLevel : Z;
  compressOnlySvgz : bool
}.

(** What [Task::Output::okData()] returns: [outSize], [ratio] and
    [outputPath]. *)
Record OkData := mkOkData {
  okOutSize : Z;
  okRatio : Z;
  okOutputPath : QString
}.

(** Modelled from the spec: [Task::Output], declared outside the sources at
    hand.  A result is an error with its message, a success with its
    figures, or a warning with both; each names the item of its job. *)
Inductive Output :=
| OutputError (errorMsg : QString) (item : TreeItemPtr)
| OutputOk (okData : OkData) (item : TreeItemPtr)
| OutputWarning (okData : OkData) (warningMsg : QString) (item : TreeItemPtr).

Definition outputType (res : Output) : Status :=
  match res with
  | OutputError _ _ => Error
  | OutputOk _ _ => Ok
  | OutputWarning _ _ _ => Warning
  end.

Definition outputItem (res : Output) : TreeItemPtr :=
  match res with
  | OutputError _ p | OutputOk _ p | OutputWarning _ _ p => p
  end.

(** ** The job builder *)

(** The job of one file item, as [genCleanData] fills it in. *)
Definition fileConfig (settings : AppSettings) (method : SavingMethod)
    (outFolder rootFolder : QString) (item : TreeItem) (ptr : TreeItemPtr) : Config :=
  mkConfig (path (data item))
           (genOutputPath settings outFolder rootFolder (path (data item)) method)
           ptr [] CompressorNone 0 false.

(** [genCleanData].  The state is the pair of the by-reference parameters
    [rootFolder] and [data]; [rootPtr] is the pointer of [root]. *)
Fixpoint genCleanData (settings : AppSettings) (root : TreeItem)
    (rootPtr : TreeItemPtr) (method : SavingMethod) (outFolder : QString)
    (st : QString * list Config) {struct root} : QString * list Config :=
  (fix children (items : list TreeItem) (idx : nat)
       (st : QString * list Config) {struct items} : QString * list Config :=
     match items with
     | [] => st
     | item :: rest =>
         let st' :=
           if negb (isEnabled item) || negb (CheckState_eqb (checkState item) Checked)
           then st
           else if isFolder item then
             let rootFolder :=
               if QStr.isEmpty (fst st) then path (data item) else fst st in
             genCleanData settings item (rootPtr ++ [idx]) method outFolder
               (rootFolder, snd st)
           else
             (fst st,
              snd st ++ [fileConfig settings method outFolder (fst st) item
                           (rootPtr ++ [idx])])
         in children rest (S idx) st'
     end) (childrenList root) 0%nat st.

(** The loop of [genCleanData] on its own, from child number [idx] on
    ([genCleanData_eq] below). *)
Fixpoint genCleanDataFrom (settings : AppSettings) (items : list TreeItem)
    (idx : nat) (rootPtr : TreeItemPtr) (method : SavingMethod)
    (outFolder : QString) (st : QString * list Config) : QString * list Config :=
  match items with
  | [] => st
  | item :: rest =>
      let st' :=
        if negb (isEnabled item) || negb (CheckState_eqb (checkState item) Checked)
        then st
        else if isFolder item then
          let rootFolder :=
            if QStr.isEmpty (fst st) then path (data item) else fst st in
          genCleanData settings item (rootPtr ++ [idx]) method outFolder
            (rootFolder, snd st)
        else
          (fst st,
           snd st ++ [fileConfig settings method outFolder (fst st) item
                        (rootPtr ++ [idx])])
      in genCleanDataFrom settings rest (S idx) rootPtr method outFolder st'
  end.

(** ** Start *)

(** What the window asks of the file system, of the compressor registry and
    of the cleaner options. *)
Record Env := mkEnv {
  fsIsDir : QString -> bool;
  fsExists : QString -> bool;
  fsFileSize : QString -> Z;
  compressorFromName : QString -> CompressorType;
  compressorIsAvailable : CompressorType -> bool;
  cleanerGenArgs : list QString
}.

(** [resetTreeData].  [itemEditFinished] only notifies the view. *)
Fixpoint resetTreeData (env : Env) (root : TreeItem) (isOverwriteMode : bool)
    {struct root} : TreeItem :=
  TreeNode (data root) (isEnabled root) (checkState root) (isFolder root)
    (List.map
       (fun item =>
          if isFolder item then resetTreeData env item isOverwriteMode
          else
            let d := data item in
            (* update initial file size since it changed *)
            let d := if isOverwriteMode
                     then setSizeBefore (fsFileSize env (path d)) d else d in
            TreeNode (resetCleanerData d) (isEnabled item) (checkState item)
              (isFolder item) (childrenList item))
       (childrenList root)).

(** The window: the widgets the two slots touch, the settings store, the
    root item of the model, the watcher and the thread pool. *)
Record Ui := mkUi {
  windowSize : Z * Z;
  lineEditFilePrefix : QString;
  lineEditFileSuffix : QString;
  progressValue : Z;
  progressMaximum : Z;
  progressVisible : bool;
  guiEnabled : bool;
  pauseBtnVisible : bool;
  actionStopEnabled : bool
}.

Record MainWindow := mkMainWindow {
  ui : Ui;
  settings : AppSettings;
  m_model : TreeItem;
  watcherPaused : bool;
  maxThreadCount : Z
}.

(** The warnings [onStart] shows, with the arguments of their text. *)
Inductive StartWarning :=
| InvalidOutputFolder
| NoPrefixOrSuffix
| CompressorNotFound
| NoFilesSelected
| SvgAndSvgzClash (file1 file2 : QString).

(** How a call of [onStart] ends: the paused run is resumed, a warning is
    shown and nothing is dispatched, or [data] goes to
    [QtConcurrent::mapped]. *)
Inductive StartOutcome :=
| Resumed
| Warned (w : StartWarning)
| Dispatched (data : list Config).

(** [MainWindow::saveSettings] *)
Definition saveSettings (w : MainWindow) : MainWindow :=
  let s := settings w in
  mkMainWindow (ui w)
    (mkAppSettings (windowSize (ui w)) (SavingMethodKey s) (OutputFolder s)
       (lineEditFilePrefix (ui w)) (lineEditFileSuffix (ui w))
       (UseCompression s) (CompressorKey s) (CompressionLevel s)
       (CompressOnlySvgz s) (Jobs s))
    (m_model w) (watcherPaused w) (maxThreadCount w).

(** The check of the saving method at the head of [onStart]. *)
Definition checkSavingMethod (env : Env) (w : MainWindow)
    (method : SavingMethod) (outFolder : QString) : option StartWarning :=
  match method with
  | SelectFolder =>
      if QStr.isEmpty outFolder || negb (fsIsDir env outFolder)
         || negb (fsExists env outFolder)
      then Some InvalidOutputFolder else None
  | SameFolder =>
      let prefix := lineEditFilePrefix (ui w) in
      let suffix := lineEditFileSuffix (ui w) in
      if QStr.isEmpty prefix && QStr.isEmpty suffix
      then Some NoPrefixOrSuffix else None
  | Overwrite => None
  end.

(** The compressor [onStart] selects, or the warning when the selected one
    is not installed any more. *)
Definition checkCompressor (env : Env) (s : AppSettings)
    : StartWarning + CompressorType :=
  if UseCompression s then
    let c := compressorFromName env (CompressorKey s) in
    if negb (isCompressorNone c) && negb (compressorIsAvailable env c)
    then inl CompressorNotFound
    else inr c
  else inr CompressorNone.

(** The input path of a job without the last letter of an SVGZ extension. *)
Definition chopZ (p : QString) : QString :=
  if QStr.endsWith p "z" || QStr.endsWith p "Z" then QStr.chop 1 p else p.

(** The loop of [onStart] that looks for an SVG and an SVGZ file of one
    name: the value of [duplFile] after it, from the set built so far. *)
Fixpoint findDuplFile (data : list Config) (set : gset QString) : QString :=
  match data with
  | [] => ""
  | t :: rest =>
      let path := chopZ (inputPath t) in
      if decide (path ∈ set) then path
      else findDuplFile rest ({[path]} ∪ set)
  end.

(** The loop of [onStart] that completes the jobs. *)
Definition fillConfig (args : list QString) (ct : CompressorType)
    (level : Z) (onlySvgz : bool) (conf : Config) : Config :=
  mkConfig (inputPath conf) (outputPath conf) (treeItem conf)
    args ct level onlySvgz.

(** The widget changes of [onStart] before the dispatch. *)
Definition startUi (u : Ui) (count : Z) : Ui :=
  mkUi (windowSize u) (lineEditFilePrefix u) (lineEditFileSuffix u)
    0 count true false true true.

(** [MainWindow::onStart] *)
Definition onStart (env : Env) (w0 : MainWindow) : MainWindow * StartOutcome :=
  if watcherPaused w0 then
    (mkMainWindow
       (let u := ui w0 in
        mkUi (windowSize u) (lineEditFilePrefix u) (lineEditFileSuffix u)
          (progressValue u) (progressMaximum u) (progressVisible u)
          (guiEnabled u) true (actionStopEnabled u))
       (settings w0) (m_model w0) false (maxThreadCount w0),
     Resumed)
  else
    (* save a file prefix and suffix *)
    let w := saveSettings w0 in
    let method := SavingMethodKey (settings w) in
    let outFolder := OutputFolder (settings w) in
    match checkSavingMethod env w method outFolder with
    | Some warning => (w, Warned warning)
    | None =>
        let compressionLevel := CompressionLevel (settings w) in
        let compressOnlySvgz := CompressOnlySvgz (settings w) in
        (* check that selected compressor is still exists *)
        match checkCompressor env (settings w) with
        | inl warning => (w, Warned warning)
        | inr compressorType =>
            let args := cleanerGenArgs env in
            let model :=
              resetTreeData env (m_model w) (isOverwrite method) in
            let w := mkMainWindow (ui w) (settings w) model (watcherPaused w)
                       (maxThreadCount w) in
            let data :=
              snd (genCleanData (settings w) model [] method outFolder ("", [])) in
            match data with
            | [] => (w, Warned NoFilesSelected)
            | _ :: _ =>
                let duplFile := findDuplFile data ∅ in
                if negb (QStr.isEmpty duplFile) then
                  (w, Warned (SvgAndSvgzClash duplFile (duplFile +:+ "z")))
                else
                  let data :=
                    List.map (fillConfig args compressorType compressionLevel
                                compressOnlySvgz) data in
                  (mkMainWindow (startUi (ui w) (Z.of_nat (List.length data)))
                     (settings w) model (watcherPaused w) (Jobs (settings w)),
                   Dispatched data)
            end
        end
    end.

(** ** The result sink *)

(** What [onResultReadyAt] does to the item of the result. *)
Definition applyResult (res : Output) (d : TreeItemData) : TreeItemData :=
  match res with
  | OutputError errorMsg _ =>
      setStatusText errorMsg (setStatus Error d)
  | OutputOk okData _ =>
      setStatus Ok
        (setOutputPath (okOutputPath okData)
           (setRatio (okRatio okData)
              (setSizeAfter (okOutSize okData) (setStatus Ok d))))
  | OutputWarning okData wd _ =>
      setStatusText wd
        (setStatus Warning
           (setOutputPath (okOutputPath okData)
              (setRatio (okRatio okData)
                 (setSizeAfter (okOutSize okData) (setStatus Ok d)))))
  end.

(** [MainWindow::onResultReadyAt]: [progress] is the watcher's progress
    value and [res] its result number [idx]. *)
Definition onResultReadyAt (w : MainWindow) (progress : Z) (res : Output)
    : MainWindow :=
  let u := ui w in
  mkMainWindow
    (mkUi (windowSize u) (lineEditFilePrefix u) (lineEditFileSuffix u)
       progress (progressMaximum u) (progressVisible u)
       (guiEnabled u) (pauseBtnVisible u) (actionStopEnabled u))
    (settings w)
    (updateItem (applyResult res) (outputItem res) (m_model w))
    (watcherPaused w) (maxThreadCount w).

(** The window after the results [results] were delivered in this order;
    each comes with the progress value of its delivery. *)
Definition deliver (w : MainWindow) (results : list (Z * Output)) : MainWindow :=
  fold_left (fun w r => onResultReadyAt w (fst r) (snd r)) results w.

(** ** Vocabulary of the statements *)

(** The test at the head of the loop of [genCleanData] lets an item pass. *)
Definition passes (item : TreeItem) : bool :=
  isEnabled item && CheckState_eqb (checkState item) Checked.

(** [Visited root ptr item]: the traversal that starts at [root] comes to
    [item], [ptr] below [root]: the item passes the test, and so does every
    item between [root] and it, each of them a folder. *)
Inductive Visited : TreeItem -> TreeItemPtr -> TreeItem -> Prop :=
| Visited_child root i item :
    childrenList root !! i = Some item ->
    passes item = true ->
    Visited root [i] item
| Visited_below root i folder ptr item :
    childrenList root !! i = Some folder ->
    passes folder = true ->
    isFolder folder = true ->
    Visited folder ptr item ->
    Visited root (i :: ptr) item.

(** Every item strictly between [root] and the item [ptr] points to is a
    folder that is enabled and checked. *)
Definition gatesOpen (root : TreeItem) (ptr : TreeItemPtr) : Prop :=
  forall k, (0 < k < length ptr)%nat ->
    exists folder,
      itemAt root (take k ptr) = Some folder /\
      isFolder folder = true /\
      isEnabled folder = true /\ checkState folder = Checked.

(** The items the traversal comes to, in its order, each with its pointer
    below [root]. *)
Fixpoint visit (root : TreeItem) : list (TreeItemPtr * TreeItem) :=
  (fix children (items : list TreeItem) (idx : nat) {struct items} :=
     match items with
     | [] => []
     | item :: rest =>
         (if passes item then
            ([idx], item)
            :: (if isFolder item
                then List.map (fun e => (idx :: fst e, snd e)) (visit item)
                else [])
          else [])
         ++ children rest (S idx)
     end) (childrenList root) 0%nat.

Fixpoint visitFrom (items : list TreeItem) (idx : nat)
    : list (TreeItemPtr * TreeItem) :=
  match items with
  | [] => []
  | item :: rest =>
      (if passes item then
         ([idx], item)
         :: (if isFolder item
             then List.map (fun e => (idx :: fst e, snd e)) (visit item)
             else [])
       else [])
      ++ visitFrom rest (S idx)
  end.

(** What [genCleanData] does at one item it comes to: a folder is recorded
    as the root folder when there is none yet, a file gets its job. *)
Definition visitStep (settings : AppSettings) (method : SavingMethod)
    (outFolder : QString) (rootPtr : TreeItemPtr)
    (st : QString * list Config) (e : TreeItemPtr * TreeItem)
    : QString * list Config :=
  if isFolder (snd e) then
    (if QStr.isEmpty (fst st) then path (data (snd e)) else fst st, snd st)
  else
    (fst st,
     snd st ++ [fileConfig settings method outFolder (fst st) (snd e)
                  (rootPtr ++ fst e)]).

(** The job [job] is the one of the visited file [e]. *)
Definition jobOf (rootPtr : TreeItemPtr) (job : Config)
    (e : TreeItemPtr * TreeItem) : Prop :=
  treeItem job = rootPtr ++ fst e /\ inputPath job = path (data (snd e)).

(** The job list [onStart] builds once its first checks have passed. *)
Definition builtJobs (env : Env) (w0 : MainWindow) : list Config :=
  let w := saveSettings w0 in
  let method := SavingMethodKey (settings w) in
  let model :=
    resetTreeData env (m_model w) (isOverwrite method) in
  snd (genCleanData (settings w) model [] method (OutputFolder (settings w))
         ("", [])).

(** A path element: a name that is not empty and holds no slash. *)
Definition pathElement (c : QString) : Prop :=
  c <> "" /\ QStr.contains c "/" = false.

(** The absolute path made of the elements [cs]. *)
Definition absPath (cs : list QString) : QString := "/" +:+ QStr.join "/" cs.

(** [FileBelow root ptr item]: [item] is a file item [ptr] below [root], under
    folders only; these are the items [resetTreeData] comes to. *)
Inductive FileBelow : TreeItem -> TreeItemPtr -> TreeItem -> Prop :=
| FileBelow_child root i item :
    childrenList root !! i = Some item ->
    isFolder item = false ->
    FileBelow root [i] item
| FileBelow_below root i folder ptr item :
    childrenList root !! i = Some folder ->
    isFolder folder = true ->
    FileBelow folder ptr item ->
    FileBelow root (i :: ptr) item.

(** The states a delivered result leaves an item in. *)
Definition terminal (s : Status) : Prop := s = Ok \/ s = Warning \/ s = Error.

(** The checks of [onStart] that come before the tree is touched: the
    warning of the first that fails. *)
Definition startChecks (env : Env) (w0 : MainWindow) : option StartWarning :=
  let w := saveSettings w0 in
  match checkSavingMethod env w (SavingMethodKey (settings w))
          (OutputFolder (settings w)) with
  | Some warning => Some warning
  | None =>
      match checkCompressor env (settings w) with
      | inl warning => Some warning
      | inr _ => None
      end
  end.

(** What [resetTreeData] makes of a child of the item it is at. *)
Definition resetChild (env : Env) (isOverwriteMode : bool) (item : TreeItem)
    : TreeItem :=
  if isFolder item then resetTreeData env item isOverwriteMode
  else
    TreeNode
      (resetCleanerData
         (if isOverwriteMode
          then setSizeBefore (fsFileSize env (path (data item))) (data item)
          else data item))
      (isEnabled item) (checkState item) (isFolder item) (childrenList item).

(** The compressor [onStart] hands to the jobs. *)
Definition selectedCompressor (env : Env) (w : MainWindow) : CompressorType :=
  match checkCompressor env (settings (saveSettings w)) with
  | inr compressorType => compressorType
  | inl _ => CompressorNone
  end.

(** The built jobs, completed as [onStart] dispatches them. *)
Definition completedJobs (env : Env) (w : MainWindow) : list Config :=
  fillConfig (cleanerGenArgs env) (selectedCompressor env w)
    (CompressionLevel (settings w)) (CompressOnlySvgz (settings w))
  <$> builtJobs env w.

(** How [onStart] ends, check by check. *)
Definition startOutcome (env : Env) (w : MainWindow) : StartOutcome :=
  if watcherPaused w then Resumed
  else
    match startChecks env w with
    | Some warning => Warned warning
    | None =>
        match builtJobs env w with
        | [] => Warned NoFilesSelected
        | _ :: _ =>
            let duplFile := findDuplFile (builtJobs env w) ∅ in
            if QStr.isEmpty duplFile then Dispatched (completedJobs env w)
            else Warned (SvgAndSvgzClash duplFile (duplFile +:+ "z"))
        end
    end.

(** The tree [onStart] leaves: reset once the first checks have passed. *)
Definition startModel (env : Env) (w : MainWindow) : TreeItem :=
  if watcherPaused w then m_model w
  else
    match startChecks env w with
    | Some _ => m_model w
    | None =>
        resetTreeData env (m_model w)
          (isOverwrite (SavingMethodKey (settings w)))
    end.

(** Items for the examples. *)
Definition fileItem (p : QString) (enabled : bool) (c : CheckState) : TreeItem :=
  TreeNode (mkData p "" 0 0 0 Pending "") enabled c false [].

Definition folderItem (p : QString) (enabled : bool) (c : CheckState)
    (items : list TreeItem) : TreeItem :=
  TreeNode (mkData p "" 0 0 0 Pending "") enabled c true items.

Definition rootItem (items : list TreeItem) : TreeItem :=
  TreeNode (mkData "" "" 0 0 0 Pending "") true Unchecked true items.

Definition settingsOf (method : SavingMethod) (outFolder prefix suffix : QString)
    : AppSettings :=
  mkAppSettings (640, 480)%Z method outFolder prefix suffix false "" 0 false 4.

(** A folder with a checked and an unchecked file in it, and so partially
    checked itself. *)
Definition partlyCheckedTree : TreeItem :=
  rootItem [folderItem "/d" true PartiallyChecked
              [fileItem "/d/a.svg" true Checked;
               fileItem "/d/b.svg" true Unchecked]].

(** A file, and a checked folder with a checked and an unchecked file and a
    folder in it. *)
Definition sampleTree : TreeItem :=
  rootItem [fileItem "/x/top.svgz" true Checked;
            folderItem "/root" true Checked
              [folderItem "/root/sub" true Checked
                 [fileItem "/root/sub/a.svg" true Checked;
                  fileItem "/root/sub/b.svg" true Unchecked];
               fileItem "/root/c.svg" false Checked]].

(** An environment for the examples: [/out] is the one folder there is, every
    file has 100 bytes, and no compressor is installed. *)
Definition sampleEnv : Env :=
  mkEnv (fun p => String.eqb p "/out") (fun p => String.eqb p "/out")
    (fun _ => 100%Z) (fun _ => CompressorNone) (fun _ => false) ["--quiet"].

Definition windowOf (method : SavingMethod) (outFolder prefix suffix : QString)
    (model : TreeItem) : MainWindow :=
  mkMainWindow
    (mkUi (640, 480)%Z prefix suffix 0 0 false true false false)
    (settingsOf method outFolder prefix suffix) model false 1.

(** Two files of one name in two folders. *)
Definition sameNameTree : TreeItem :=
  rootItem [fileItem "/a/x.svg" true Checked; fileItem "/b/x.svg" true Checked].

(** An SVG and an SVGZ file of one name in one folder. *)
Definition svgAndSvgzTree : TreeItem :=
  rootItem [fileItem "/a/x.svg" true Checked; fileItem "/a/x.svgz" true Checked].

(** A file cleaned by an earlier run, and not checked any more. *)
Definition cleanedTree : TreeItem :=
  rootItem [TreeNode (mkData "/a/x.svg" "/out/x.svg" 100 60 40 Ok "")
              true Unchecked false []].

(** ** The update check *)

(** The two settings [checkUpdates] reads and writes.  A [QDate] is a day
    number; [None] is the invalid date an empty setting converts to. *)
Record UpdateSettings := mkUpdateSettings {
  CheckUpdatesKey : bool;
  LastUpdatesCheck : option Z
}.

(** [date == currDate], where the current date is always a valid one. *)
Definition isDate (date : option Z) (currDate : Z) : bool :=
  match date with
  | Some d => Z.eqb d currDate
  | None => false
  end.

(** [MainWindow::checkUpdates]: the settings it leaves and, when it calls
    [m_updater->checkUpdates], the argument of the call. *)
Definition checkUpdates (s : UpdateSettings) (currDate : Z) (manual : bool)
    : UpdateSettings * option bool :=
  if negb manual then
    if negb (CheckUpdatesKey s) then (s, None)
    else
      (* check once a day *)
      if isDate (LastUpdatesCheck s) currDate then (s, None)
      else (mkUpdateSettings (CheckUpdatesKey s) (Some currDate), Some manual)
  else (s, Some manual).

(** ** Adding files *)

(** The loop of [on_actionAddFiles_triggered] over the selected files: the
    paths it hands to [addFile], in order, and the flag [hasSymlink]. *)
Fixpoint addSelectedFiles (isSymLink : QString -> bool) (files : list QString)
    (st : list QString * bool) : list QString * bool :=
  match files with
  | [] => st
  | file :: rest =>
      addSelectedFiles isSymLink rest
        (if negb (isSymLink file) then (fst st ++ [file], snd st)
         else (fst st, true))
  end.

(** What [on_actionAddFiles_triggered] does: nothing when the dialog is
    dismissed; else the last path it stores, the calls of [addFile], and
    whether it warns that symlinks are not supported. *)
Record AddFilesResult := mkAddFilesResult {
  storedLastPath : QString;
  addFileCalls : list QString;
  symlinkWarning : bool
}.

Definition on_actionAddFiles_triggered (isSymLink : QString -> bool)
    (dialog : option (QString * list QString)) : option AddFilesResult :=
  match dialog with
  | None => None
  | Some (directory, selectedFiles) =>
      let r := addSelectedFiles isSymLink selectedFiles ([], false) in
      Some (mkAddFilesResult directory (fst r) (snd r))
  end.

(** ** Double clicks *)

(** The columns of the tree view, in the order [initTree] sets them up. *)
Inductive Column :=
  ColumnName | ColumnSizeBefore | ColumnSizeAfter | ColumnRatio | ColumnStatus.

(** A [QModelIndex], with the item [m_model->itemByIndex] returns for it
    ([None] for a null pointer). *)
Record QModelIndex := mkQModelIndex {
  indexIsValid : bool;
  indexColumn : Column;
  indexItem : option TreeItemPtr
}.

Definition itemByIndex (w : MainWindow) (index : QModelIndex) : option TreeItem :=
  match indexItem index with
  | Some ptr => itemAt (m_model w) ptr
  | None => None
  end.

Definition Status_eqb (a b : Status) : bool :=
  match a, b with
  | Pending, Pending | Ok, Ok | Warning, Warning | Error, Error => true
  | _, _ => false
  end.

(** What a double click brings about: nothing, the status text in a message
    box, a file opened by the desktop, or the use of a null item. *)
Inductive ClickAction :=
| NoAction
| StatusInfo (text : QString)
| OpenUrl (localFile : QString)
| NullItem.

(** [MainWindow::onDoubleClick] *)
Definition onDoubleClick (w : MainWindow) (index : QModelIndex) : ClickAction :=
  if negb (indexIsValid index) then NoAction
  else
    match indexColumn index with
    | ColumnStatus =>
        match itemByIndex w index with
        | Some item =>
            if negb (isFolder item) && negb (Status_eqb (status (data item)) Ok)
            then StatusInfo (statusText (data item))
            else NoAction
        | None => NoAction
        end
    | ColumnSizeBefore =>
        match itemByIndex w index with
        | Some item => OpenUrl (path (data item))
        | None => NullItem
        end
    | ColumnSizeAfter =>
        match itemByIndex w index with
        | Some item =>
            if negb (QStr.isEmpty (outPath (data item)))
            then OpenUrl (outPath (data item))
            else NoAction
        | None => NullItem
        end
    | _ => NoAction
    end.

(** ** The indentation box of the output page *)
Module OutputPage.

(** The items the constructor adds to [cmbBoxIndent]: the text shown and the
    data stored with it. *)
Definition indentItems : list (QString * QString) :=
  [("None", "none"); ("No spaces", "0"); ("1 space", "1"); ("2 spaces", "2");
   ("3 spaces", "3"); ("4 spaces", "4"); ("Tabs", "tabs")].

(** [QComboBox::findData]: the index of the first item with the data, or
    [-1]. *)
Fixpoint findDataFrom (items : list (QString * QString)) (value : QString)
    (i : Z) : Z :=
  match items with
  | [] => (-1)%Z
  | it :: rest =>
      if String.eqb (snd it) value then i else findDataFrom rest value (i + 1)%Z
  end.

Definition findData (items : list (QString * QString)) (value : QString) : Z :=
  findDataFrom items value 0%Z.

(** [QComboBox::currentData]: the data of the current item; there is none
    when the index is out of range, and the invalid value reads as the empty
    string. *)
Definition currentData (items : list (QString * QString)) (idx : Z) : QString :=
  if (idx <? 0)%Z then ""
  else match items !! Z.to_nat idx with
       | Some it => snd it
       | None => ""
       end.

(** The page, as far as the indentation goes: the current index of the box
    and the stored option.  The base class looks after the widgets
    registered with [addOptWidgets]; the box is not one of them. *)
Record Page := mkPage {
  cmbBoxIndentIndex : Z;
  optionIndent : QString
}.

(** [OutputPage::saveConfig] *)
Definition saveConfig (p : Page) : Page :=
  mkPage (cmbBoxIndentIndex p) (currentData indentItems (cmbBoxIndentIndex p)).

(** [OutputPage::restoreDefaults] *)
Definition restoreDefaults (p : Page) : Page :=
  mkPage 0 (optionIndent p).

(** [OutputPage::loadConfig] *)
Definition loadConfig (p : Page) : Page :=
  let idx := findData indentItems (optionIndent p) in
  let idx := if (idx =? -1)%Z then 0%Z else idx in
  mkPage idx (optionIndent p).

End OutputPage.

(** ** More vocabulary *)

(** What [resetTreeData] keeps of an item: its path, its marks, its kind
    and the number of its children. *)
Definition itemShape (item : TreeItem) : QString * bool * CheckState * bool * nat :=
  (path (data item), isEnabled item, checkState item, isFolder item,
   length (childrenList item)).

(** [n] steps up, as [QDir::relativeFilePath] writes them. *)
Definition stepsUp (n : nat) : QString := QStr.repeated n "../".

(** * Properties *)

(** ** Strings *)
Lemma append_cons (a : ascii) (s t : QString) :
  String a s +:+ t = String a (s +:+ t).
Proof. reflexivity. Qed.

Lemma append_nil_l (t : QString) : "" +:+ t = t.
Proof. reflexivity. Qed.

(** Pushes appends through the constructors of their left operand. *)
Ltac unapp := rewrite ?append_cons, ?append_nil_l in *; simpl in *.

Section StringFacts.
Import QStr.

Lemma append_assoc (s t u : QString) : (s +:+ t) +:+ u = s +:+ (t +:+ u).
Proof. induction s as [|a s IH]; unapp; congruence. Qed.

Lemma length_append (s t : QString) :
  String.length (s +:+ t) = (String.length s + String.length t)%nat.
Proof. induction s as [|a s IH]; unapp; congruence. Qed.

Lemma back_snoc (s : QString) (c : ascii) : back (s +:+ String c "") = Some c.
Proof.
  induction s as [|a s IH]; [reflexivity|].
  unapp. destruct (s +:+ String c "") eqn:E; [|exact IH].
  destruct s; discriminate.
Qed.

Lemma back_append (s t : QString) : t <> "" -> back (s +:+ t) = back t.
Proof.
  intros Ht. induction s as [|a s IH]; [reflexivity|].
  unapp. destruct (s +:+ t) eqn:E; [|exact IH].
  destruct s; unapp; congruence.
Qed.

Lemma endsWith_snoc (s : QString) (c d : ascii) :
  endsWith (s +:+ String c "") d = Ascii.eqb c d.
Proof. unfold endsWith. now rewrite back_snoc. Qed.

Lemma endsWith_append (s t : QString) (d : ascii) :
  t <> "" -> endsWith (s +:+ t) d = endsWith t d.
Proof. intros Ht. unfold endsWith. now rewrite back_append. Qed.

Lemma left_length_append (s t : QString) : left (String.length s) (s +:+ t) = s.
Proof.
  unfold left. induction s as [|a s IH]; unapp.
  - now destruct t.
  - now rewrite IH.
Qed.

Lemma chop_snoc (s : QString) (c : ascii) : chop 1 (s +:+ String c "") = s.
Proof.
  unfold chop. rewrite length_append. simpl.
  replace (String.length s + 1 - 1)%nat with (String.length s) by lia.
  apply left_length_append.
Qed.

(** A string is empty or has a last character. *)
Lemma snoc_cases (s : QString) : s = "" \/ exists r c, s = r +:+ String c "".
Proof.
  induction s as [|a s IH]; [now left|right].
  destruct IH as [->|(r & c & ->)].
  - now exists "", a.
  - now exists (String a r), c.
Qed.

Lemma snoc_inj (r r' : QString) (c c' : ascii) :
  r +:+ String c "" = r' +:+ String c' "" -> r = r' /\ c = c'.
Proof.
  revert r'. induction r as [|a r IH]; intros [|a' r'] H; unapp.
  - now inversion H.
  - inversion H. destruct r'; discriminate.
  - inversion H. destruct r; discriminate.
  - inversion H. destruct (IH r') as [-> ->]; auto.
Qed.

Lemma endsWith_true (s : QString) (d : ascii) :
  endsWith s d = true <-> exists r, s = r +:+ String d "".
Proof.
  split.
  - destruct (snoc_cases s) as [->|(r & c & ->)]; [discriminate|].
    rewrite endsWith_snoc. intros H%Ascii.eqb_eq. subst. now exists r.
  - intros [r ->]. rewrite endsWith_snoc. apply Ascii.eqb_refl.
Qed.

(** Cutting at the last separator. *)

Lemma cutLast_append (sep : ascii) (s t : QString) :
  cutLast sep t = None -> cutLast sep (s +:+ String sep t) = Some (s, t).
Proof.
  intros Ht. induction s as [|a s IH]; unapp.
  - now rewrite Ht, Ascii.eqb_refl.
  - now rewrite IH.
Qed.


Lemma contains_cutLast (s : QString) (sep : ascii) :
  contains s sep = false -> cutLast sep s = None.
Proof.
  induction s as [|a s IH]; simpl; [reflexivity|].
  destruct (Ascii.eqb a sep); [discriminate|].
  intros H. now rewrite IH.
Qed.

End StringFacts.

Example path_examples :
  QtPath.fileName "/root/sub/a.svg" = "a.svg" /\
  QtPath.absolutePath "/a/b.svgz" = "/a" /\
  QtPath.absolutePath "/b.svgz" = "/" /\
  QtPath.completeBaseName "/a/b.tar.svgz" = "b.tar" /\
  QtPath.dirName "/home/root/" = "root" /\
  QtPath.relativeFilePath "/root" "/root/sub/a.svg" = "sub/a.svg" /\
  QtPath.relativeFilePath "/root/x" "/root/sub/a.svg" = "../sub/a.svg" /\
  QtPath.relativeFilePath "/root" "/root" = "." /\
  QStr.chop 1 "a.svgz" = "a.svg" /\ QStr.chop 3 "ab" = "".
Proof. repeat split; reflexivity. Qed.

(** ** Output path resolution *)
Section OutputPath.
Import QStr QtPath.

Variable settings : AppSettings.
Variables outFolder rootFolder : QString.

Lemma chopZ_snoc_z (r : QString) : chopZ (r +:+ "z") = r /\ chopZ (r +:+ "Z") = r.
Proof.
  unfold chopZ. rewrite !endsWith_snoc. simpl. split; apply chop_snoc.
Qed.

Lemma chopZ_other (p : QString) :
  (forall r, p <> r +:+ "z" /\ p <> r +:+ "Z") -> chopZ p = p.
Proof.
  intros H. unfold chopZ.
  destruct (endsWith p "z") eqn:Ez.
  { apply endsWith_true in Ez as [r ->]. now destruct (H r). }
  destruct (endsWith p "Z") eqn:EZ; [|reflexivity].
  apply endsWith_true in EZ as [r ->]. now destruct (H r).
Qed.

Lemma chopZ_dot_svg (p : QString) : chopZ (p +:+ ".svg") = p +:+ ".svg".
Proof. unfold chopZ. now rewrite !endsWith_append. Qed.

Lemma genOutputPath_chopZ (path : QString) (method : SavingMethod) :
  genOutputPath settings outFolder rootFolder path method
  = chopZ (outPathOfMethod settings outFolder rootFolder path method).
Proof. reflexivity. Qed.

Lemma chopZ_absolute (p : QString) :
  isRelativePath p = false -> chopZ p <> "".
Proof.
  destruct p as [|a p]; [discriminate|]. intros Ha.
  destruct (snoc_cases p) as [->|(r & c & ->)]; [now destruct a as [[] [] [] [] [] [] [] []]|].
  change (String a (r +:+ String c "")) with (String a r +:+ String c "").
  unfold chopZ. rewrite !endsWith_snoc, chop_snoc.
  destruct (_ || _); [discriminate|]. unapp. discriminate.
Qed.

End OutputPath.

(** C5.  Under the same-folder policy the output path is the directory of
    the input file, a separator, the configured prefix, the base name of the
    input file without its extension, the configured suffix and [.svg]: as
    Qt's [absolutePath] and [completeBaseName] name the parts, and for an
    input [dir/name.ext] written out.  [/a/b.svgz] with prefix [pre_] and no
    suffix gives [/a/pre_b.svg]. *)
Theorem genOutputPath_same_folder :
  (forall settings outFolder rootFolder path,
     genOutputPath settings outFolder rootFolder path SameFolder
     = QtPath.absolutePath path +:+ "/" +:+ FilePrefix settings
         +:+ QtPath.completeBaseName path +:+ FileSuffix settings +:+ ".svg") /\
  (forall settings outFolder rootFolder dir name ext,
     dir <> "" ->
     QStr.contains name "/" = false ->
     QStr.contains ext "/" = false -> QStr.contains ext "." = false ->
     genOutputPath settings outFolder rootFolder
       (dir +:+ "/" +:+ name +:+ "." +:+ ext) SameFolder
     = dir +:+ "/" +:+ FilePrefix settings +:+ name +:+ FileSuffix settings
         +:+ ".svg") /\
  (forall settings outFolder rootFolder,
     FilePrefix settings = "pre_" -> FileSuffix settings = "" ->
     genOutputPath settings outFolder rootFolder "/a/b.svgz" SameFolder
     = "/a/pre_b.svg").
Proof.
  assert (A : forall settings outFolder rootFolder path,
     genOutputPath settings outFolder rootFolder path SameFolder
     = QtPath.absolutePath path +:+ "/" +:+ FilePrefix settings
         +:+ QtPath.completeBaseName path +:+ FileSuffix settings +:+ ".svg").
  { intros. rewrite genOutputPath_chopZ. unfold outPathOfMethod.
    rewrite chopZ_dot_svg. unfold QtPath.separator.
    now rewrite !append_assoc. }
  split; [exact A|split].
  - intros settings outFolder rootFolder dir name ext Hdir Hname He1 He2.
    rewrite A.
    assert (Hcut : QStr.cutLast "/" (dir +:+ "/" +:+ name +:+ "." +:+ ext)
                   = Some (dir, name +:+ "." +:+ ext)).
    { apply (cutLast_append "/"%char dir (name +:+ "." +:+ ext)).
      destruct (QStr.cutLast "/" (name +:+ "." +:+ ext)) as [[b e]|] eqn:E;
        [|reflexivity].
      exfalso.
      assert (Hc : QStr.contains (name +:+ "." +:+ ext) "/" = false).
      { clear E. induction name as [|a n IH]; unapp; [exact He1|].
        apply orb_false_iff in Hname as [-> Hn]. simpl. auto. }
      apply (contains_cutLast _ "/"%char) in Hc. congruence. }
    unfold QtPath.absolutePath, QtPath.entryPath, QtPath.completeBaseName,
      QtPath.fileName.
    rewrite Hcut.
    pose proof (cutLast_append "."%char name ext (contains_cutLast _ _ He2)) as Hdot.
    change (String "." ext) with ("." +:+ ext) in Hdot. rewrite Hdot.
    destruct dir; [congruence|reflexivity].
  - intros settings outFolder rootFolder Hp Hs. rewrite A, Hp, Hs. reflexivity.
Qed.

Lemma genOutputPath_same_folder_witness :
  genOutputPath
    (mkAppSettings (640, 480)%Z SameFolder "" "clean_" "_v2" false "" 0 false 4)
    "" "" "/home/icons/logo.final.SVGZ" SameFolder
  = "/home/icons/clean_logo.final_v2.svg" /\
  genOutputPath (settingsOf SameFolder "" "pre_" "") "" "" "/a/b.svgz" SameFolder
  = "/a/pre_b.svg".
Proof.
  split;
    [|exact (proj2 (proj2 genOutputPath_same_folder)
               (settingsOf SameFolder "" "pre_" "") "" "" eq_refl eq_refl)].
  exact (proj1 (proj2 genOutputPath_same_folder)
           (mkAppSettings (640, 480)%Z SameFolder "" "clean_" "_v2" false "" 0 false 4)
           "" "" "/home/icons" "logo.final" "SVGZ"
           ltac:(discriminate) eq_refl eq_refl eq_refl).
Defined.

(** C6.  Whatever the policy, an output path the policy computes with a last
    letter [z] or [Z] loses that letter, and any other computed path is kept;
    under the overwrite policy the computed path is the input path, so that
    [/a/b.svg] is its own output path. *)
Theorem genOutputPath_strips_trailing_z :
  forall settings outFolder rootFolder path,
    (forall method r,
       outPathOfMethod settings outFolder rootFolder path method = r +:+ "z" \/
       outPathOfMethod settings outFolder rootFolder path method = r +:+ "Z" ->
       genOutputPath settings outFolder rootFolder path method = r) /\
    (forall method,
       (forall r,
          outPathOfMethod settings outFolder rootFolder path method <> r +:+ "z" /\
          outPathOfMethod settings outFolder rootFolder path method <> r +:+ "Z") ->
       genOutputPath settings outFolder rootFolder path method
       = outPathOfMethod settings outFolder rootFolder path method) /\
    outPathOfMethod settings outFolder rootFolder path Overwrite = path /\
    ((forall r, path <> r +:+ "z" /\ path <> r +:+ "Z") ->
     genOutputPath settings outFolder rootFolder path Overwrite = path) /\
    genOutputPath settings outFolder rootFolder "/a/b.svg" Overwrite = "/a/b.svg".
Proof.
  intros settings outFolder rootFolder path. repeat split.
  - intros method r [H|H]; rewrite genOutputPath_chopZ, H; apply chopZ_snoc_z.
  - intros method H. rewrite genOutputPath_chopZ. now apply chopZ_other.
  - intros H. rewrite genOutputPath_chopZ. now apply chopZ_other.
Qed.

Lemma genOutputPath_strips_trailing_z_witness :
  genOutputPath (settingsOf SelectFolder "/out" "" "") "/out" "" "/a/b.svgZ"
    SelectFolder
  = "/out/b.svg" /\
  genOutputPath (settingsOf Overwrite "" "" "") "" "" "/a/b.svg" Overwrite
  = "/a/b.svg".
Proof.
  split.
  - apply (proj1 (genOutputPath_strips_trailing_z
                    (settingsOf SelectFolder "/out" "" "") "/out" ""
                    "/a/b.svgZ")
             SelectFolder "/out/b.svg").
    right. reflexivity.
  - apply (proj1 (proj2 (proj2 (proj2 (genOutputPath_strips_trailing_z
                    (settingsOf Overwrite "" "" "") "" "" "/a/b.svg"))))).
    intros r. split; intros H;
      apply (snoc_inj "/a/b.sv" r "g" _) in H as [_ H]; discriminate.
Defined.

(** C9.  The output path is a function of the policy, the output folder, the
    root folder, the input path and the configured prefix and suffix alone:
    two settings stores that agree on the prefix and the suffix give the same
    path whatever else they hold, and under the other two policies the store
    is not looked at. *)
Theorem genOutputPath_deterministic :
  forall s1 s2 outFolder rootFolder path method,
    (FilePrefix s1 = FilePrefix s2 -> FileSuffix s1 = FileSuffix s2 ->
     genOutputPath s1 outFolder rootFolder path method
     = genOutputPath s2 outFolder rootFolder path method) /\
    (method <> SameFolder ->
     genOutputPath s1 outFolder rootFolder path method
     = genOutputPath s2 outFolder rootFolder path method).
Proof.
  intros s1 s2 outFolder rootFolder path method. split.
  - intros Hp Hs. unfold genOutputPath, outPathOfMethod.
    destruct method; try reflexivity. now rewrite Hp, Hs.
  - intros Hm. destruct method; try reflexivity. congruence.
Qed.

Lemma genOutputPath_deterministic_witness :
  genOutputPath
    (mkAppSettings (640, 480)%Z SameFolder "/out" "pre_" "_s" false "" 0 false 4)
    "/out" "/root" "/root/sub/a.svgz" SameFolder
  = genOutputPath
      (mkAppSettings (800, 600)%Z Overwrite "/tmp" "pre_" "_s" true "zopfli" 5 true 1)
      "/out" "/root" "/root/sub/a.svgz" SameFolder.
Proof.
  apply (proj1 (genOutputPath_deterministic
                  (mkAppSettings (640, 480)%Z SameFolder "/out" "pre_" "_s"
                     false "" 0 false 4)
                  (mkAppSettings (800, 600)%Z Overwrite "/tmp" "pre_" "_s"
                     true "zopfli" 5 true 1)
                  "/out" "/root" "/root/sub/a.svgz" SameFolder));
    reflexivity.
Defined.

(** ** The traversal *)

Example genCleanData_example :
  genCleanData (settingsOf SelectFolder "/out" "" "")
    (rootItem [fileItem "/x/top.svgz" true Checked;
               folderItem "/root" true Checked
                 [folderItem "/root/sub" true Checked
                    [fileItem "/root/sub/a.svg" true Checked;
                     fileItem "/root/sub/b.svg" true Unchecked];
                  fileItem "/root/c.svg" false Checked];
               fileItem "/y/last.svg" true Checked])
    [] SelectFolder "/out" ("", [])
  = ("/root",
     [mkConfig "/x/top.svgz" "/out/top.svg" [0%nat] [] CompressorNone 0 false;
      mkConfig "/root/sub/a.svg" "/out/root/sub/a.svg" [1%nat; 0%nat; 0%nat] []
        CompressorNone 0 false;
      mkConfig "/y/last.svg" "/out/root/../y/last.svg" [2%nat] []
        CompressorNone 0 false]).
Proof. reflexivity. Qed.

(** Induction on a tree, with the hypothesis for every child. *)
Lemma TreeItem_forall_ind (P : TreeItem -> Prop) :
  (forall d e c f items, Forall P items -> P (TreeNode d e c f items)) ->
  forall t, P t.
Proof.
  intros H. fix IH 1. intros [d e c f items]. apply H.
  induction items as [|x items IHitems]; constructor; [apply IH|exact IHitems].
Qed.

Lemma genCleanData_eq settings root rootPtr method outFolder st :
  genCleanData settings root rootPtr method outFolder st
  = genCleanDataFrom settings (childrenList root) 0 rootPtr method outFolder st.
Proof.
  destruct root as [d e c f items]. simpl.
  generalize 0%nat. revert st.
  induction items as [|x items IH]; intros st n; [reflexivity|].
  simpl. apply IH.
Qed.

Lemma visit_eq root : visit root = visitFrom (childrenList root) 0.
Proof.
  destruct root as [d e c f items]. simpl. generalize 0%nat.
  induction items as [|x items IH]; intros n; [reflexivity|].
  simpl. now rewrite IH.
Qed.

Lemma passes_test item :
  negb (isEnabled item) || negb (CheckState_eqb (checkState item) Checked)
  = negb (passes item).
Proof. unfold passes. now destruct (isEnabled item), (CheckState_eqb _ _). Qed.

Lemma passes_spec item :
  passes item = true <-> isEnabled item = true /\ checkState item = Checked.
Proof.
  unfold passes. rewrite andb_true_iff.
  split; intros [He Hc]; split; auto; now destruct (checkState item).
Qed.

Section Traversal.
Variable settings : AppSettings.
Variable method : SavingMethod.
Variable outFolder : QString.

Let step := visitStep settings method outFolder.

Lemma fold_step_below rootPtr idx (l : list (TreeItemPtr * TreeItem)) st :
  fold_left (step rootPtr) (List.map (fun e => (idx :: fst e, snd e)) l) st
  = fold_left (step (rootPtr ++ [idx])) l st.
Proof.
  revert st. induction l as [|e l IH]; intros st; [reflexivity|].
  simpl. rewrite IH. f_equal.
  unfold step, visitStep. simpl. now rewrite <- app_assoc.
Qed.

(** The traversal is the fold of [visitStep] over the items it comes to. *)
Lemma genCleanData_fold root :
  forall rootPtr st,
    genCleanData settings root rootPtr method outFolder st
    = fold_left (step rootPtr) (visit root) st.
Proof.
  induction root as [d e c f items IH] using TreeItem_forall_ind.
  intros rootPtr st. rewrite genCleanData_eq, visit_eq. simpl childrenList.
  generalize 0%nat. revert st.
  induction IH as [|item rest Hitem _ IHrest]; intros st idx; [reflexivity|].
  simpl. rewrite IHrest, fold_left_app, passes_test.
  destruct (passes item) eqn:Hp; simpl; [|reflexivity].
  f_equal.
  replace (step rootPtr st ([idx], item))
    with (if isFolder item
          then (if QStr.isEmpty (fst st) then path (data item) else fst st, snd st)
          else (fst st,
                snd st ++ [fileConfig settings method outFolder (fst st) item
                             (rootPtr ++ [idx])]))
    by reflexivity.
  destruct (isFolder item) eqn:Hf.
  - rewrite Hitem. now rewrite fold_step_below.
  - reflexivity.
Qed.

End Traversal.

(** ** The items the traversal comes to *)

Lemma elem_of_visitFrom items idx ptr item :
  (ptr, item) ∈ visitFrom items idx <->
  exists i c,
    items !! i = Some c /\ passes c = true /\
    ((ptr = [(idx + i)%nat] /\ item = c) \/
     (isFolder c = true /\
      exists rest, ptr = (idx + i)%nat :: rest /\ (rest, item) ∈ visit c)).
Proof.
  revert idx. induction items as [|x items IH]; intros idx; simpl.
  { split; [intros H; inversion H|intros (i & c & H & _); discriminate]. }
  rewrite elem_of_app, IH. split.
  - intros [H|(i & c & Hi & Hp & H)].
    + exists 0%nat, x. rewrite Nat.add_0_r.
      destruct (passes x) eqn:Hp; [|inversion H].
      split; [reflexivity|split; [reflexivity|]].
      apply elem_of_cons in H as [H|H]; [left; now inversion H|right].
      destruct (isFolder x); [|inversion H]. split; [reflexivity|].
      apply list_elem_of_fmap in H as ([rest y] & Heq & Hin).
      inversion Heq; subst. now exists rest.
    + exists (S i), c. rewrite Nat.add_succ_r. auto.
  - intros (i & c & Hi & Hp & H). destruct i as [|i].
    + left. simpl in Hi. inversion Hi; subst x. rewrite Nat.add_0_r in H.
      rewrite Hp. destruct H as [[-> ->]|(Hf & rest & -> & Hin)].
      * apply elem_of_cons; now left.
      * apply elem_of_cons; right. rewrite Hf.
        apply list_elem_of_fmap. now exists (rest, item).
    + right. exists i, c. rewrite Nat.add_succ_r in H. auto.
Qed.

Lemma elem_of_visit root ptr item :
  (ptr, item) ∈ visit root <->
  exists i c,
    childrenList root !! i = Some c /\ passes c = true /\
    ((ptr = [i] /\ item = c) \/
     (isFolder c = true /\
      exists rest, ptr = i :: rest /\ (rest, item) ∈ visit c)).
Proof. rewrite visit_eq. apply elem_of_visitFrom. Qed.

Lemma visit_Visited root ptr item :
  (ptr, item) ∈ visit root <-> Visited root ptr item.
Proof.
  split.
  - revert ptr item.
    induction root as [d e c f items IH] using TreeItem_forall_ind.
    intros ptr item (i & x & Hi & Hp & H)%elem_of_visit. simpl in Hi.
    destruct H as [[-> ->]|(Hf & rest & -> & Hin)].
    + now apply Visited_child.
    + apply Visited_below with x; auto.
      rewrite Forall_lookup in IH. eapply IH; eauto.
  - induction 1 as [root i item Hi Hp|root i folder ptr item Hi Hp Hf _ IH];
      apply elem_of_visit; exists i; eauto 10.
Qed.

Lemma Visited_itemAt root ptr item :
  Visited root ptr item -> itemAt root ptr = Some item.
Proof.
  induction 1 as [root i item Hi Hp|root i folder ptr item Hi Hp Hf _ IH];
    simpl; now rewrite Hi.
Qed.

Lemma Visited_passes root ptr item :
  Visited root ptr item -> passes item = true.
Proof. induction 1; auto. Qed.

(** The traversal comes to an item exactly when the item and all folders
    above it are enabled and checked. *)
Lemma Visited_spec root ptr item :
  Visited root ptr item <->
  ptr <> [] /\ itemAt root ptr = Some item /\
  isEnabled item = true /\ checkState item = Checked /\ gatesOpen root ptr.
Proof.
  split.
  - intros Hv. split; [now destruct Hv|].
    split; [now apply Visited_itemAt|].
    pose proof (Visited_passes _ _ _ Hv) as [He Hc]%passes_spec.
    split; [exact He|]. split; [exact Hc|]. clear He Hc.
    induction Hv as [root i item Hi Hp|root i folder ptr item Hi Hp Hf Hv IH];
      intros k Hk; simpl in Hk; [lia|].
    destruct k as [|k]; [lia|]. simpl. rewrite Hi.
    destruct k as [|k].
    + exists folder. apply passes_spec in Hp as [He Hc]. now rewrite take_0.
    + apply IH. lia.
  - revert root. induction ptr as [|i ptr IH]; intros root (Hne & Hitem & He & Hc & Hg);
      [congruence|].
    simpl in Hitem. destruct (childrenList root !! i) as [c|] eqn:Hi; [|discriminate].
    destruct ptr as [|j ptr].
    + inversion Hitem; subst c. apply Visited_child; [exact Hi|].
      now apply passes_spec.
    + destruct (Hg 1%nat) as (f & Hf & Hfolder & Hfe & Hfc); [simpl; lia|].
      simpl in Hf. rewrite Hi in Hf. inversion Hf; subst f.
      apply Visited_below with c; auto; [now apply passes_spec|].
      apply IH. repeat split; auto.
      intros k Hk. destruct (Hg (S k)) as (f & Hf' & Hrest); [simpl in *; lia|].
      exists f. split; [|exact Hrest].
      simpl in Hf'. now rewrite Hi in Hf'.
Qed.

Lemma visit_NoDup root : NoDup (visit root).*1.
Proof.
  induction root as [d e c f items IH] using TreeItem_forall_ind.
  rewrite visit_eq. simpl childrenList. generalize 0%nat.
  induction IH as [|x rest Hx _ IHrest]; intros idx; simpl; [constructor|].
  rewrite fmap_app. apply NoDup_app. split; [|split; [|apply IHrest]].
  - destruct (passes x); [|constructor]. simpl. constructor.
    + destruct (isFolder x); [|apply not_elem_of_nil].
      rewrite <- list_fmap_compose. intros ([p y] & Heq & Hin)%list_elem_of_fmap.
      simpl in Heq. inversion Heq; subst p.
      apply elem_of_visit in Hin as (i & z & _ & _ & [[? _]|(_ & r & ? & _)]);
        discriminate.
    + destruct (isFolder x); [|constructor].
      rewrite <- list_fmap_compose.
      change (NoDup ((cons idx ∘ fst) <$> visit x)).
      rewrite list_fmap_compose. apply NoDup_fmap_2; [|exact Hx].
      intros a b Hab. now inversion Hab.
  - intros ptr Hin1 Hin2.
    apply list_elem_of_fmap in Hin2 as ([p y] & -> & Hin2).
    apply elem_of_visitFrom in Hin2 as (i & z & _ & _ & Hz). simpl in Hin1.
    assert (Hhd : exists r, p = (S idx + i)%nat :: r).
    { destruct Hz as [[-> _]|(_ & r & -> & _)]; eauto. }
    destruct Hhd as [r ->].
    destruct (passes x); [|inversion Hin1]. simpl in Hin1.
    apply elem_of_cons in Hin1 as [Heq|Hin1]; [inversion Heq; lia|].
    destruct (isFolder x); [|inversion Hin1].
    rewrite <- list_fmap_compose in Hin1.
    apply list_elem_of_fmap in Hin1 as (q & Heq & _). simpl in Heq.
    inversion Heq; lia.
Qed.

(** ** The jobs of the traversal *)

Section Jobs.
Variable settings : AppSettings.
Variable method : SavingMethod.
Variable outFolder : QString.

Let step := visitStep settings method outFolder.

Lemma fold_step_jobs rootPtr (l : list (TreeItemPtr * TreeItem)) :
  forall st, exists new,
    snd (fold_left (step rootPtr) l st) = snd st ++ new /\
    Forall2 (jobOf rootPtr) new
      (filter (fun e => isFolder (snd e) = false) l).
Proof.
  induction l as [|e l IH]; intros st; simpl.
  { exists []. now rewrite app_nil_r. }
  destruct (IH (step rootPtr st e)) as (new & Hnew & Hall).
  assert (Hs : snd (step rootPtr st e)
               = if isFolder (snd e) then snd st
                 else snd st ++ [fileConfig settings method outFolder (fst st)
                                   (snd e) (rootPtr ++ fst e)]).
  { unfold step, visitStep. now destruct (isFolder (snd e)). }
  rewrite Hs in Hnew. clear Hs.
  destruct (isFolder (snd e)) eqn:Hf.
  - exists new. rewrite filter_cons_False by congruence. auto.
  - eexists (_ :: new). rewrite filter_cons_True by assumption.
    rewrite Hnew, <- app_assoc. split; [reflexivity|].
    constructor; [now split|exact Hall].
Qed.

Lemma genCleanData_visit root :
  Forall2 (jobOf [])
    (snd (genCleanData settings root [] method outFolder ("", [])))
    (filter (fun e => isFolder (snd e) = false) (visit root)).
Proof.
  rewrite genCleanData_fold.
  destruct (fold_step_jobs [] (visit root) ("", [])) as (new & Hnew & Hall).
  unfold step in Hnew. rewrite Hnew. exact Hall.
Qed.

Lemma jobOf_treeItems (jobs : list Config) (es : list (TreeItemPtr * TreeItem)) :
  Forall2 (jobOf []) jobs es -> treeItem <$> jobs = es.*1.
Proof.
  induction 1 as [|job e jobs es [Hj _] _ IH]; [reflexivity|].
  rewrite !fmap_cons, IH, Hj. reflexivity.
Qed.

Lemma genCleanData_treeItems root :
  treeItem <$> snd (genCleanData settings root [] method outFolder ("", []))
  = (filter (fun e => isFolder (snd e) = false) (visit root)).*1.
Proof. apply jobOf_treeItems, genCleanData_visit. Qed.

Lemma genCleanData_job_visited root job :
  job ∈ snd (genCleanData settings root [] method outFolder ("", [])) ->
  exists item,
    Visited root (treeItem job) item /\ isFolder item = false /\
    inputPath job = path (data item).
Proof.
  intros Hin. pose proof (genCleanData_visit root) as H.
  apply list_elem_of_lookup in Hin as [k Hk].
  destruct (Forall2_lookup_l _ _ _ _ _ H Hk) as ([ptr item] & He & Hj & Hpath).
  apply list_elem_of_lookup_2, list_elem_of_filter in He as [Hf Hv].
  apply visit_Visited in Hv. simpl in *. exists item. now rewrite Hj.
Qed.

Lemma genCleanData_visited_job root ptr item :
  Visited root ptr item -> isFolder item = false ->
  exists job,
    job ∈ snd (genCleanData settings root [] method outFolder ("", [])) /\
    treeItem job = ptr /\ inputPath job = path (data item).
Proof.
  intros Hv Hf. pose proof (genCleanData_visit root) as H.
  assert (Hin : (ptr, item) ∈ filter (fun e => isFolder (snd e) = false) (visit root)).
  { apply list_elem_of_filter. split; [exact Hf|now apply visit_Visited]. }
  apply list_elem_of_lookup in Hin as [k Hk].
  destruct (Forall2_lookup_r _ _ _ _ _ H Hk) as (job & Hjob & Hj & Hpath).
  exists job. split; [eapply list_elem_of_lookup_2; eauto|auto].
Qed.

Lemma genCleanData_NoDup root :
  NoDup (treeItem <$> snd (genCleanData settings root [] method outFolder ("", []))).
Proof.
  rewrite genCleanData_treeItems.
  pose proof (visit_NoDup root) as H.
  induction (visit root) as [|e l IH]; [constructor|].
  simpl in H. apply NoDup_cons in H as [Hnotin Hl].
  destruct (decide (isFolder (snd e) = false)) as [Hf|Hf].
  - rewrite filter_cons_True by assumption. simpl. constructor; [|auto].
    intros (x & Hx & Hin)%list_elem_of_fmap. apply Hnotin.
    apply list_elem_of_filter in Hin as [_ Hin].
    apply list_elem_of_fmap. eauto.
  - rewrite filter_cons_False by assumption. auto.
Qed.

End Jobs.

(** C1, as the code has it.  The job list holds exactly one job for every
    item that is not a folder, is enabled and checked, and lies below the
    root under folders each of which is enabled and checked itself; and it
    holds no other job.  The job carries the path of the item as its input
    path and the item as its tree item.  A folder that is disabled or not
    checked is skipped with all it holds. *)
Theorem genCleanData_jobs_visited :
  forall settings root method outFolder,
    NoDup (treeItem <$>
             snd (genCleanData settings root [] method outFolder ("", []))) /\
    (forall ptr item,
       ptr <> [] -> itemAt root ptr = Some item ->
       isFolder item = false ->
       isEnabled item = true -> checkState item = Checked ->
       gatesOpen root ptr ->
       exists job,
         job ∈ snd (genCleanData settings root [] method outFolder ("", [])) /\
         treeItem job = ptr /\ inputPath job = path (data item)) /\
    (forall job,
       job ∈ snd (genCleanData settings root [] method outFolder ("", [])) ->
       exists item,
         treeItem job <> [] /\ itemAt root (treeItem job) = Some item /\
         isFolder item = false /\
         isEnabled item = true /\ checkState item = Checked /\
         gatesOpen root (treeItem job) /\
         inputPath job = path (data item)).
Proof.
  intros settings root method outFolder. split; [|split].
  - apply genCleanData_NoDup.
  - intros ptr item Hne Hitem Hf He Hc Hg.
    apply genCleanData_visited_job; [|exact Hf].
    apply Visited_spec. auto.
  - intros job (item & Hv & Hf & Hp)%genCleanData_job_visited.
    apply Visited_spec in Hv as (Hne & Hitem & He & Hc & Hg).
    exists item. auto 10.
Qed.

Lemma genCleanData_jobs_visited_witness :
  exists job,
    job ∈ snd (genCleanData (settingsOf SelectFolder "/out" "" "") sampleTree []
                 SelectFolder "/out" ("", [])) /\
    treeItem job = [1; 0; 0]%nat /\ inputPath job = "/root/sub/a.svg".
Proof.
  apply (proj1 (proj2 (genCleanData_jobs_visited
                         (settingsOf SelectFolder "/out" "" "") sampleTree
                         SelectFolder "/out"))
           [1; 0; 0]%nat (fileItem "/root/sub/a.svg" true Checked));
    try reflexivity; [discriminate|].
  intros k Hk. simpl in Hk.
  destruct k as [|[|[|k]]]; try lia; eexists; repeat split; reflexivity.
Defined.

(** C1 as stated fails: a checked file in a folder that is not fully checked
    gets no job, because the test at the head of the loop skips the folder
    with all it holds. *)
Lemma genCleanData_unchecked_folder_counterexample :
  ~ (forall ptr item,
       itemAt partlyCheckedTree ptr = Some item ->
       isEnabled item = true -> checkState item = Checked ->
       isFolder item = false ->
       exists job,
         job ∈ snd (genCleanData (settingsOf Overwrite "" "" "")
                      partlyCheckedTree [] Overwrite "" ("", [])) /\
         treeItem job = ptr).
Proof.
  intros H.
  destruct (H [0; 0]%nat (fileItem "/d/a.svg" true Checked)
              eq_refl eq_refl eq_refl eq_refl) as (job & Hin & _).
  inversion Hin.
Qed.

(** ** The root folder of the batch *)

Lemma visitFrom_app (a b : list TreeItem) (idx : nat) :
  visitFrom (a ++ b) idx = visitFrom a idx ++ visitFrom b (idx + length a).
Proof.
  revert idx. induction a as [|x a IH]; intros idx; simpl.
  - now rewrite Nat.add_0_r.
  - rewrite IH, <- app_assoc. do 3 f_equal. lia.
Qed.

Lemma isEmpty_false (s : QString) : s <> "" -> QStr.isEmpty s = false.
Proof. now destruct s. Qed.

Section RootFolder.
Variable settings : AppSettings.
Variable method : SavingMethod.
Variable outFolder : QString.

Let step := visitStep settings method outFolder.

(** The output path of [job] was resolved with the root folder [rf]. *)
Let resolvedWith (rf : QString) (job : Config) : Prop :=
  outputPath job = genOutputPath settings outFolder rf (inputPath job) method.

(** Once a root folder is recorded it stays, and every later job is resolved
    with it. *)
Lemma fold_step_rooted rootPtr (l : list (TreeItemPtr * TreeItem)) rf :
  rf <> "" ->
  forall acc, exists post,
    fold_left (step rootPtr) l (rf, acc) = (rf, acc ++ post) /\
    Forall (resolvedWith rf) post.
Proof.
  intros Hrf. induction l as [|e l IH]; intros acc; simpl.
  { exists []. now rewrite app_nil_r. }
  unfold step at 2. unfold visitStep. simpl.
  rewrite (isEmpty_false rf Hrf).
  destruct (isFolder (snd e)).
  - apply IH.
  - destruct (IH (acc ++ [fileConfig settings method outFolder rf (snd e)
                             (rootPtr ++ fst e)])) as (post & -> & Hpost).
    eexists (_ :: post). rewrite <- app_assoc. split; [reflexivity|].
    constructor; [reflexivity|exact Hpost].
Qed.

(** Before any folder is come to, no root folder is recorded and the jobs
    are resolved without one. *)
Lemma fold_step_files (before : list TreeItem) :
  Forall (fun item => passes item = true -> isFolder item = false) before ->
  forall idx acc, exists pre,
    fold_left (step []) (visitFrom before idx) ("", acc) = ("", acc ++ pre) /\
    inputPath <$> pre
    = (fun item => path (data item)) <$> filter (fun item => passes item = true) before /\
    Forall (resolvedWith "") pre.
Proof.
  induction 1 as [|x before Hx _ IH]; intros idx acc; simpl.
  { exists []. now rewrite app_nil_r. }
  destruct (passes x) eqn:Hp.
  - rewrite (Hx eq_refl). simpl. unfold step at 2. unfold visitStep. simpl.
    rewrite (Hx eq_refl). simpl.
    destruct (IH (S idx) (acc ++ [fileConfig settings method outFolder "" x [idx]]))
      as (pre & -> & Hin & Hpre).
    eexists (_ :: pre). rewrite <- app_assoc. split; [reflexivity|].
    rewrite filter_cons_True by assumption. rewrite !fmap_cons, Hin.
    split; [reflexivity|]. constructor; [reflexivity|exact Hpre].
  - simpl. destruct (IH (S idx) acc) as (pre & -> & Hin & Hpre).
    exists pre. rewrite filter_cons_False by congruence. auto.
Qed.

Lemma genCleanData_root_folder root before folder after :
  childrenList root = before ++ folder :: after ->
  Forall (fun item => passes item = true -> isFolder item = false) before ->
  passes folder = true -> isFolder folder = true ->
  path (data folder) <> "" ->
  exists pre post,
    genCleanData settings root [] method outFolder ("", [])
    = (path (data folder), pre ++ post) /\
    inputPath <$> pre
    = (fun item => path (data item)) <$> filter (fun item => passes item = true) before /\
    Forall (resolvedWith "") pre /\
    Forall (resolvedWith (path (data folder))) post.
Proof.
  intros Hch Hbefore Hp Hf Hpath.
  rewrite genCleanData_fold, visit_eq, Hch, visitFrom_app, fold_left_app.
  destruct (fold_step_files before Hbefore 0 []) as (pre & Hpre & Hin & Hres).
  fold step. rewrite Hpre. simpl. rewrite Hp, Hf. simpl.
  unfold step at 2. unfold visitStep. simpl. rewrite Hf.
  destruct (fold_step_rooted [] (((fun e => (length before :: fst e, snd e)) <$> visit folder)
                                   ++ visitFrom after (S (length before)))
              (path (data folder)) Hpath pre) as (post & Hpost & Hres').
  exists pre, post. split; [exact Hpost|auto].
Qed.

End RootFolder.

(** ** Paths by their elements *)
Section PathElements.
Import QStr QtPath.

Lemma split_element (c : QString) :
  contains c "/" = false -> split "/" c = [c].
Proof.
  induction c as [|a c IH]; [reflexivity|]. simpl.
  intros [Ha Hc]%orb_false_iff. now rewrite Ha, IH.
Qed.

Lemma split_append (c t : QString) :
  contains c "/" = false -> split "/" (c +:+ "/" +:+ t) = c :: split "/" t.
Proof.
  induction c as [|a c IH]; [reflexivity|]. simpl.
  intros [Ha Hc]%orb_false_iff. unapp. now rewrite Ha, IH.
Qed.

Lemma split_join (cs : list QString) :
  cs <> [] -> Forall pathElement cs -> split "/" (join "/" cs) = cs.
Proof.
  intros Hne Hcs. induction Hcs as [|c cs [_ Hc] Hcs IH]; [congruence|].
  destruct cs as [|c' cs]; [now apply split_element|].
  change (join "/" (c :: c' :: cs)) with (c +:+ "/" +:+ join "/" (c' :: cs)).
  rewrite split_append by exact Hc. now rewrite IH.
Qed.

Lemma filter_elements (cs : list QString) :
  Forall pathElement cs -> filter (fun p => isEmpty p = false) cs = cs.
Proof.
  induction 1 as [|c cs [Hc _] _ IH]; [reflexivity|].
  rewrite filter_cons_True by now apply isEmpty_false.
  now rewrite IH.
Qed.

Lemma splitSkipEmpty_absPath (cs : list QString) :
  Forall pathElement cs -> splitSkipEmpty "/" (absPath cs) = cs.
Proof.
  intros Hcs. unfold splitSkipEmpty, absPath.
  change ("/" +:+ join "/" cs) with ("" +:+ "/" +:+ join "/" cs).
  rewrite split_append by reflexivity.
  rewrite filter_cons_False by (simpl; congruence).
  destruct cs as [|c cs]; [reflexivity|].
  rewrite split_join by (auto; congruence). now apply filter_elements.
Qed.

Lemma skipCommon_prefix (rs fs : list QString) :
  skipCommon rs (rs ++ fs) = ([], fs).
Proof.
  induction rs as [|r rs IH]; simpl; [now destruct fs|].
  now rewrite String.eqb_refl.
Qed.

Lemma join_not_empty (cs : list QString) :
  cs <> [] -> Forall pathElement cs -> join "/" cs <> "".
Proof.
  intros Hne Hcs. destruct Hcs as [|c cs [Hc _] _]; [congruence|].
  destruct c; [congruence|]. destruct cs; simpl; unapp; discriminate.
Qed.

Lemma join_snoc (cs : list QString) (name : QString) :
  cs <> [] -> join "/" (cs ++ [name]) = join "/" cs +:+ "/" +:+ name.
Proof.
  induction cs as [|c cs IH]; [congruence|]. intros _.
  destruct cs as [|c' cs]; [reflexivity|].
  change (join "/" ((c :: c' :: cs) ++ [name]))
    with (c +:+ "/" +:+ join "/" ((c' :: cs) ++ [name])).
  rewrite IH by congruence.
  change (join "/" (c :: c' :: cs)) with (c +:+ "/" +:+ join "/" (c' :: cs)).
  now rewrite !append_assoc.
Qed.

(** An absolute path with a last element is what precedes that element, a
    slash, and the element. *)
Lemma absPath_snoc (cs : list QString) (name : QString) :
  exists dir, absPath (cs ++ [name]) = dir +:+ String "/" name.
Proof.
  destruct cs as [|c cs].
  - now exists "".
  - exists (absPath (c :: cs)). unfold absPath.
    rewrite join_snoc by congruence. rewrite append_assoc. reflexivity.
Qed.

Lemma endsWith_contains (s : QString) (c : ascii) :
  endsWith s c = true -> contains s c = true.
Proof.
  intros [r ->]%endsWith_true. induction r as [|a r IH]; unapp.
  - now rewrite Ascii.eqb_refl.
  - rewrite IH. apply orb_true_r.
Qed.

Lemma fileName_absPath (cs : list QString) (name : QString) :
  pathElement name -> fileName (absPath (cs ++ [name])) = name.
Proof.
  intros [_ Hname]. destruct (absPath_snoc cs name) as [dir ->].
  unfold fileName. now rewrite cutLast_append by now apply contains_cutLast.
Qed.

Lemma dirName_absPath (cs : list QString) (name : QString) :
  pathElement name -> dirName (absPath (cs ++ [name])) = name.
Proof.
  intros Hname. unfold dirName, dirPath.
  destruct (endsWith (absPath (cs ++ [name])) "/") eqn:E.
  - exfalso. destruct (absPath_snoc cs name) as [dir Hdir].
    rewrite Hdir in E. destruct Hname as [Hne Hname].
    change (dir +:+ String "/" name) with (dir +:+ "/" +:+ name) in E.
    rewrite <- append_assoc, endsWith_append in E by exact Hne.
    apply endsWith_contains in E. congruence.
  - simpl. now apply fileName_absPath.
Qed.

Lemma relativeFilePath_below (rs fs : list QString) :
  Forall pathElement rs -> Forall pathElement fs -> fs <> [] ->
  relativeFilePath (absPath rs) (absPath (rs ++ fs)) = join "/" fs.
Proof.
  intros Hrs Hfs Hne. unfold relativeFilePath.
  change (isRelativePath (absPath (rs ++ fs))) with false.
  change (isRelativePath (absPath rs)) with false. simpl orb. cbv iota.
  rewrite !splitSkipEmpty_absPath by (try apply Forall_app; auto).
  rewrite skipCommon_prefix. simpl List.length. simpl repeated.
  rewrite append_nil_l, isEmpty_false; [reflexivity|].
  now apply join_not_empty.
Qed.

End PathElements.

(** C4.  Under the selected-folder policy a file resolved while no root
    folder is recorded goes to the output folder under its own file name; a
    file resolved with a root folder goes to the output folder, then the
    directory name of the root folder, then the path of the file relative to
    the root folder, so that a file [fs] below the root folder [.../name]
    goes to [outFolder/name/fs] and [/root/sub/a.svg] below [/root] to
    [/out/root/sub/a.svg].  In the traversal the root folder is the first
    child of the root item that passes the test and is a folder: the jobs
    before it are resolved without a root folder and all jobs after it with
    that folder.  The last letter of an SVGZ extension is removed in every
    case. *)
Theorem genOutputPath_select_folder :
  (forall settings outFolder path,
     genOutputPath settings outFolder "" path SelectFolder
     = chopZ (outFolder +:+ "/" +:+ QtPath.fileName path)) /\
  (forall settings outFolder rootFolder path,
     rootFolder <> "" ->
     genOutputPath settings outFolder rootFolder path SelectFolder
     = chopZ (outFolder +:+ "/" +:+ QtPath.dirName rootFolder +:+ "/"
                +:+ QtPath.relativeFilePath rootFolder path)) /\
  (forall settings outFolder rs name fs,
     Forall pathElement rs -> pathElement name ->
     Forall pathElement fs -> fs <> [] ->
     genOutputPath settings outFolder (absPath (rs ++ [name]))
       (absPath ((rs ++ [name]) ++ fs)) SelectFolder
     = chopZ (outFolder +:+ "/" +:+ name +:+ "/" +:+ QStr.join "/" fs)) /\
  (forall settings,
     genOutputPath settings "/out" "/root" "/root/sub/a.svg" SelectFolder
     = "/out/root/sub/a.svg") /\
  (forall settings outFolder root before folder after,
     childrenList root = before ++ folder :: after ->
     Forall (fun item => passes item = true -> isFolder item = false) before ->
     passes folder = true -> isFolder folder = true ->
     path (data folder) <> "" ->
     exists pre post,
       genCleanData settings root [] SelectFolder outFolder ("", [])
       = (path (data folder), pre ++ post) /\
       inputPath <$> pre
       = (fun item => path (data item))
           <$> filter (fun item => passes item = true) before /\
       Forall (fun job =>
                 outputPath job
                 = chopZ (outFolder +:+ "/" +:+ QtPath.fileName (inputPath job)))
              pre /\
       Forall (fun job =>
                 outputPath job
                 = chopZ (outFolder +:+ "/"
                            +:+ QtPath.dirName (path (data folder)) +:+ "/"
                            +:+ QtPath.relativeFilePath (path (data folder))
                                  (inputPath job)))
              post).
Proof.
  assert (A : forall settings outFolder path,
     genOutputPath settings outFolder "" path SelectFolder
     = chopZ (outFolder +:+ "/" +:+ QtPath.fileName path)).
  { intros. rewrite genOutputPath_chopZ. simpl. unfold QtPath.separator.
    now rewrite append_assoc. }
  assert (B : forall settings outFolder rootFolder path,
     rootFolder <> "" ->
     genOutputPath settings outFolder rootFolder path SelectFolder
     = chopZ (outFolder +:+ "/" +:+ QtPath.dirName rootFolder +:+ "/"
                +:+ QtPath.relativeFilePath rootFolder path)).
  { intros settings outFolder rootFolder path Hr.
    rewrite genOutputPath_chopZ. unfold outPathOfMethod.
    rewrite (isEmpty_false _ Hr). unfold QtPath.separator.
    now rewrite !append_assoc. }
  split; [exact A|]. split; [exact B|]. split; [|split].
  - intros settings outFolder rs name fs Hrs Hname Hfs Hne.
    rewrite B.
    + rewrite dirName_absPath by exact Hname.
      rewrite relativeFilePath_below; auto.
      apply Forall_app. split; [exact Hrs|now constructor].
    + unfold absPath. discriminate.
  - intros settings. reflexivity.
  - intros settings outFolder root before folder after Hch Hbefore Hp Hf Hpath.
    destruct (genCleanData_root_folder settings SelectFolder outFolder root
                before folder after Hch Hbefore Hp Hf Hpath)
      as (pre & post & Hgen & Hin & Hpre & Hpost).
    exists pre, post. split; [exact Hgen|]. split; [exact Hin|]. split.
    + eapply Forall_impl; [exact Hpre|]. intros job Hjob. simpl in Hjob.
      now rewrite <- (A settings).
    + eapply Forall_impl; [exact Hpost|]. intros job Hjob. simpl in Hjob.
      now rewrite <- (B settings).
Qed.

Lemma genOutputPath_select_folder_witness :
  genOutputPath (settingsOf SelectFolder "/out" "" "") "/out" "/home/me/icons"
    "/home/me/icons/set/a.svgz" SelectFolder
  = "/out/icons/set/a.svg" /\
  genOutputPath (settingsOf SelectFolder "/out" "" "") "/out" "/root"
    "/y/last.svg" SelectFolder
  = "/out/root/../y/last.svg" /\
  (exists pre post,
     genCleanData (settingsOf SelectFolder "/out" "" "") sampleTree []
       SelectFolder "/out" ("", [])
     = ("/root", pre ++ post) /\
     inputPath <$> pre = ["/x/top.svgz"] /\
     Forall (fun job =>
               outputPath job
               = chopZ ("/out" +:+ "/" +:+ QtPath.fileName (inputPath job)))
            pre /\
     Forall (fun job =>
               outputPath job
               = chopZ ("/out" +:+ "/" +:+ QtPath.dirName "/root" +:+ "/"
                          +:+ QtPath.relativeFilePath "/root" (inputPath job)))
            post).
Proof.
  split; [|split].
  - exact (proj1 (proj2 (proj2 genOutputPath_select_folder))
             (settingsOf SelectFolder "/out" "" "") "/out"
             ["home"; "me"] "icons" ["set"; "a.svgz"]
             ltac:(repeat (constructor; [split; [discriminate|reflexivity]|]);
                   constructor)
             ltac:(split; [discriminate|reflexivity])
             ltac:(repeat (constructor; [split; [discriminate|reflexivity]|]);
                   constructor)
             ltac:(discriminate)).
  - exact (proj1 (proj2 genOutputPath_select_folder)
             (settingsOf SelectFolder "/out" "" "") "/out" "/root" "/y/last.svg"
             ltac:(discriminate)).
  - exact (proj2 (proj2 (proj2 (proj2 genOutputPath_select_folder)))
             (settingsOf SelectFolder "/out" "" "") "/out" sampleTree
             [fileItem "/x/top.svgz" true Checked]
             (folderItem "/root" true Checked
                [folderItem "/root/sub" true Checked
                   [fileItem "/root/sub/a.svg" true Checked;
                    fileItem "/root/sub/b.svg" true Unchecked];
                 fileItem "/root/c.svg" false Checked])
             [] eq_refl
             ltac:(repeat constructor) eq_refl eq_refl ltac:(discriminate)).
Defined.

(** ** Reading and writing items through their pointers *)

Lemma dataAt_cons t j q :
  dataAt t (j :: q)
  = match childrenList t !! j with
    | Some c => dataAt c q
    | None => None
    end.
Proof. unfold dataAt. simpl. now destruct (childrenList t !! j). Qed.

Lemma dataAt_updateItem f ptr :
  forall t q,
    dataAt (updateItem f ptr t) q
    = if decide (ptr = q) then f <$> dataAt t q else dataAt t q.
Proof.
  induction ptr as [|i ptr IH]; intros t q.
  - destruct q as [|j q]; [reflexivity|].
    rewrite decide_False by discriminate. now rewrite !dataAt_cons.
  - destruct q as [|j q]; [now rewrite decide_False by discriminate|].
    rewrite !dataAt_cons. simpl childrenList. rewrite list_lookup_alter.
    destruct (decide (i = j)) as [<-|Hij].
    + destruct (childrenList t !! i) as [c|] eqn:Hc.
      * change (dataAt (updateItem f ptr c) q
                = if decide (i :: ptr = i :: q) then f <$> dataAt c q
                  else dataAt c q).
        rewrite IH. destruct (decide (ptr = q)) as [->|Hne].
        -- now rewrite decide_True.
        -- rewrite decide_False by congruence. reflexivity.
      * now destruct (decide (i :: ptr = i :: q)).
    + rewrite decide_False by congruence. reflexivity.
Qed.

Lemma dataAt_onResultReadyAt w progress res q :
  dataAt (m_model (onResultReadyAt w progress res)) q
  = if decide (outputItem res = q)
    then applyResult res <$> dataAt (m_model w) q
    else dataAt (m_model w) q.
Proof. apply dataAt_updateItem. Qed.

Lemma applyResult_status res d : status (applyResult res d) = outputType res.
Proof. now destruct res. Qed.

Lemma outputType_terminal res : terminal (outputType res).
Proof. unfold terminal. destruct res; simpl; auto. Qed.

Lemma terminal_not_Pending s : terminal s <-> s <> Pending.
Proof.
  unfold terminal. split.
  - intros [->|[->| ->]]; discriminate.
  - destruct s; auto. congruence.
Qed.

(** A result leaves every item with data, and leaves in a terminal state the
    item it is for and the items that were in one. *)
Lemma onResultReadyAt_terminal w progress res ptr d :
  dataAt (m_model w) ptr = Some d ->
  exists d',
    dataAt (m_model (onResultReadyAt w progress res)) ptr = Some d' /\
    (outputItem res = ptr -> terminal (status d')) /\
    (terminal (status d) -> terminal (status d')).
Proof.
  intros Hd. rewrite dataAt_onResultReadyAt, Hd.
  destruct (decide (outputItem res = ptr)) as [Heq|Hne]; simpl.
  - eexists. split; [reflexivity|].
    rewrite applyResult_status. split; intros _; apply outputType_terminal.
  - exists d. split; [reflexivity|]. split; [congruence|auto].
Qed.

Lemma deliver_terminal results :
  forall w ptr d,
    dataAt (m_model w) ptr = Some d ->
    exists d',
      dataAt (m_model (deliver w results)) ptr = Some d' /\
      (ptr ∈ (fun r => outputItem (snd r)) <$> results -> terminal (status d')) /\
      (terminal (status d) -> terminal (status d')).
Proof.
  unfold deliver. induction results as [|[progress res] results IH]; intros w ptr d Hd.
  - exists d. split; [exact Hd|]. split; [|auto]. intros H. inversion H.
  - simpl.
    destruct (onResultReadyAt_terminal w progress res ptr d Hd)
      as (d1 & Hd1 & Hfor & Hkeep).
    destruct (IH _ ptr d1 Hd1) as (d' & Hd' & Hin & Hkeep').
    exists d'. split; [exact Hd'|]. split; [|tauto].
    intros [Heq|Hrest]%elem_of_cons; [|auto].
    simpl in Heq. auto.
Qed.

(** ** Resetting the tree *)

Lemma resetTreeData_children env root ow :
  childrenList (resetTreeData env root ow)
  = resetChild env ow <$> childrenList root.
Proof. now destruct root. Qed.

Lemma resetChild_flags env ow item :
  isFolder (resetChild env ow item) = isFolder item /\
  isEnabled (resetChild env ow item) = isEnabled item /\
  checkState (resetChild env ow item) = checkState item /\
  path (data (resetChild env ow item)) = path (data item).
Proof.
  unfold resetChild. destruct (isFolder item) eqn:Hf.
  - now destruct item.
  - simpl. repeat split; auto. now destruct ow.
Qed.

(** Every file item under folders is reset, and in overwrite mode its size
    is read again. *)
Lemma resetTreeData_file env ow root ptr item :
  FileBelow root ptr item ->
  dataAt (resetTreeData env root ow) ptr
  = Some (resetCleanerData
            (if ow then setSizeBefore (fsFileSize env (path (data item))) (data item)
             else data item)).
Proof.
  induction 1 as [root i item Hi Hf|root i folder ptr item Hi Hf _ IH];
    rewrite dataAt_cons, resetTreeData_children, list_lookup_fmap, Hi; simpl;
    unfold resetChild; rewrite Hf.
  - reflexivity.
  - exact IH.
Qed.

(** A file item the traversal comes to in a reset tree is in the reset
    state. *)
Lemma resetTreeData_visited env ow :
  forall root' ptr item,
    Visited root' ptr item ->
    forall root, root' = resetTreeData env root ow ->
    isFolder item = false ->
    exists d, data item = resetCleanerData d.
Proof.
  induction 1 as [root' i item Hi Hp|root' i folder ptr item Hi Hp Hf _ IH];
    intros root -> Hfile;
    rewrite resetTreeData_children, list_lookup_fmap in Hi;
    destruct (childrenList root !! i) as [x|]; simpl in Hi; try discriminate;
    inversion Hi as [Hx]; clear Hi.
  - subst item. destruct (resetChild_flags env ow x) as (Hfx & _).
    rewrite Hfx in Hfile. unfold resetChild. rewrite Hfile. simpl. eauto.
  - subst folder. destruct (resetChild_flags env ow x) as (Hfx & _).
    rewrite Hfx in Hf. unfold resetChild in IH. rewrite Hf in IH.
    apply (IH x); auto.
Qed.

(** ** The name check of Start *)

Lemma findDuplFile_none (data : list Config) :
  Forall (fun job => chopZ (inputPath job) <> "") data ->
  forall set : gset QString,
    findDuplFile data set = "" ->
    NoDup ((fun job => chopZ (inputPath job)) <$> data) /\
    (forall job, job ∈ data -> chopZ (inputPath job) ∉ set).
Proof.
  induction 1 as [|t data Ht _ IH]; intros set Hfind; simpl in *.
  { split; [constructor|]. intros job H. inversion H. }
  destruct (decide (chopZ (inputPath t) ∈ set)) as [Hin|Hnotin]; [congruence|].
  destruct (IH _ Hfind) as [Hnd Hset]. split.
  - constructor; [|exact Hnd].
    intros (job & Heq & Hjob)%list_elem_of_fmap.
    apply (Hset job Hjob). rewrite <- Heq.
    apply elem_of_union. left. now apply elem_of_singleton.
  - intros job [->|Hjob]%elem_of_cons; [exact Hnotin|].
    intros Hin. apply (Hset job Hjob), elem_of_union. now right.
Qed.

Lemma findDuplFile_clash (data : list Config) i j a b :
  Forall (fun job => QtPath.isRelativePath (inputPath job) = false) data ->
  data !! i = Some a -> data !! j = Some b -> i <> j ->
  chopZ (inputPath a) = chopZ (inputPath b) ->
  QStr.isEmpty (findDuplFile data ∅) = false.
Proof.
  intros Habs Hi Hj Hij Heq.
  destruct (findDuplFile data ∅) eqn:Hfind; [exfalso|reflexivity].
  apply findDuplFile_none in Hfind as [Hnd _].
  - apply Hij. eapply NoDup_lookup; [exact Hnd|..].
    + rewrite list_lookup_fmap, Hi. reflexivity.
    + rewrite list_lookup_fmap, Hj. simpl. now rewrite Heq.
  - eapply Forall_impl; [exact Habs|]. intros job. apply chopZ_absolute.
Qed.

(** ** Start, check by check *)

Lemma onStart_outcome env w :
  snd (onStart env w) = startOutcome env w /\
  m_model (fst (onStart env w)) = startModel env w.
Proof.
  unfold onStart, startOutcome, startModel, startChecks, completedJobs,
    selectedCompressor.
  destruct (watcherPaused w); [now split|].
  destruct (checkSavingMethod env (saveSettings w) _ _); [now split|].
  destruct (checkCompressor env (settings (saveSettings w))) as [x|ct];
    [now split|].
  change (snd (genCleanData _ _ _ _ _ _)) with (builtJobs env w).
  destruct (builtJobs env w) as [|job jobs]; [now split|].
  destruct (QStr.isEmpty (findDuplFile (job :: jobs) ∅)); now split.
Qed.

Lemma startChecks_warning env w warning :
  startChecks env w = Some warning ->
  warning = InvalidOutputFolder \/ warning = NoPrefixOrSuffix \/
  warning = CompressorNotFound.
Proof.
  unfold startChecks, checkSavingMethod, checkCompressor.
  destruct (SavingMethodKey (settings (saveSettings w)));
    repeat match goal with
      | |- context [if ?c then _ else _] => destruct c
      end;
    intros H; inversion H; auto.
Qed.

(** What a dispatch tells about the call. *)
Lemma onStart_Dispatched env w w' jobs :
  onStart env w = (w', Dispatched jobs) ->
  watcherPaused w = false /\ startChecks env w = None /\
  findDuplFile (builtJobs env w) ∅ = "" /\
  jobs = completedJobs env w /\
  m_model w'
  = resetTreeData env (m_model w) (isOverwrite (SavingMethodKey (settings w))).
Proof.
  intros H. destruct (onStart_outcome env w) as [Hout Hmodel].
  rewrite H in Hout, Hmodel. simpl in Hout, Hmodel.
  unfold startOutcome in Hout. unfold startModel in Hmodel.
  destruct (watcherPaused w); [discriminate|].
  destruct (startChecks env w); [discriminate|].
  destruct (builtJobs env w) as [|job rest] eqn:Hb; [discriminate|].
  destruct (findDuplFile (job :: rest) ∅) eqn:Hd; simpl in Hout;
    inversion Hout; auto.
Qed.

(** What a warning of the two late checks tells about the call. *)
Lemma onStart_late_warning env w w' warning :
  onStart env w = (w', Warned warning) ->
  warning = NoFilesSelected \/ (exists a b, warning = SvgAndSvgzClash a b) ->
  watcherPaused w = false /\ startChecks env w = None /\
  m_model w'
  = resetTreeData env (m_model w) (isOverwrite (SavingMethodKey (settings w))).
Proof.
  intros H Hw. destruct (onStart_outcome env w) as [Hout Hmodel].
  rewrite H in Hout, Hmodel. simpl in Hout, Hmodel.
  unfold startOutcome in Hout. unfold startModel in Hmodel.
  destruct (watcherPaused w); [discriminate|].
  destruct (startChecks env w) as [x|] eqn:Hc; [|auto].
  exfalso. inversion Hout; subst x.
  apply startChecks_warning in Hc.
  destruct Hw as [->|(a & b & ->)], Hc as [?|[?|?]]; discriminate.
Qed.

Lemma completedJobs_paths env w :
  inputPath <$> completedJobs env w = inputPath <$> builtJobs env w /\
  outputPath <$> completedJobs env w = outputPath <$> builtJobs env w /\
  treeItem <$> completedJobs env w = treeItem <$> builtJobs env w.
Proof.
  unfold completedJobs. rewrite <- !list_fmap_compose. auto.
Qed.

(** A clash of an SVG and an SVGZ name among the built jobs ends Start with a
    warning. *)
Lemma onStart_clash_warned env w i j a b :
  watcherPaused w = false ->
  Forall (fun job => QtPath.isRelativePath (inputPath job) = false)
    (builtJobs env w) ->
  builtJobs env w !! i = Some a -> builtJobs env w !! j = Some b -> i <> j ->
  chopZ (inputPath a) = chopZ (inputPath b) ->
  (exists warning, snd (onStart env w) = Warned warning) /\
  (startChecks env w = None ->
   exists duplFile,
     snd (onStart env w) = Warned (SvgAndSvgzClash duplFile (duplFile +:+ "z"))).
Proof.
  intros Hpaused Habs Hi Hj Hij Heq.
  pose proof (findDuplFile_clash _ i j a b Habs Hi Hj Hij Heq) as Hd.
  destruct (onStart_outcome env w) as [-> _]. unfold startOutcome.
  rewrite Hpaused.
  destruct (startChecks env w); [split; [eauto|discriminate]|].
  destruct (builtJobs env w) as [|job rest] eqn:Hb; [discriminate|].
  cbv zeta. rewrite Hd. split; eauto.
Qed.

(** ** The jobs Start dispatches *)

Lemma fold_step_resolved settings method outFolder rootPtr
    (l : list (TreeItemPtr * TreeItem)) :
  forall st, exists new,
    snd (fold_left (visitStep settings method outFolder rootPtr) l st)
    = snd st ++ new /\
    Forall (fun job => exists rf,
              outputPath job
              = genOutputPath settings outFolder rf (inputPath job) method) new.
Proof.
  induction l as [|e l IH]; intros st; simpl.
  { exists []. now rewrite app_nil_r. }
  destruct (IH (visitStep settings method outFolder rootPtr st e))
    as (new & Hnew & Hall).
  rewrite Hnew. unfold visitStep at 1. destruct (isFolder (snd e)); simpl.
  - eauto.
  - eexists (_ :: new). rewrite <- app_assoc. split; [reflexivity|].
    constructor; [|exact Hall]. now exists (fst st).
Qed.

Lemma builtJobs_overwrite env w :
  SavingMethodKey (settings w) = Overwrite ->
  Forall (fun job => outputPath job = chopZ (inputPath job)) (builtJobs env w).
Proof.
  intros Hm. unfold builtJobs. rewrite genCleanData_fold.
  match goal with
  | |- context [fold_left (visitStep ?s ?m ?o ?p) ?l ?st] =>
      destruct (fold_step_resolved s m o p l st) as (new & Hnew & Hall)
  end.
  rewrite Hnew. simpl. eapply Forall_impl; [exact Hall|].
  intros job [rf Hrf]. simpl in Hrf. rewrite Hm in Hrf. exact Hrf.
Qed.

(** A dispatched job points to a file item of the tree Start leaves, and the
    item is in the reset state. *)
Lemma dispatched_job_item env w w' jobs job :
  onStart env w = (w', Dispatched jobs) -> job ∈ jobs ->
  exists item d0,
    itemAt (m_model w') (treeItem job) = Some item /\
    isFolder item = false /\ data item = resetCleanerData d0.
Proof.
  intros Hstart Hjob.
  apply onStart_Dispatched in Hstart as (_ & _ & _ & -> & Hmodel).
  unfold completedJobs in Hjob.
  apply list_elem_of_fmap in Hjob as (job0 & -> & Hjob0).
  unfold builtJobs in Hjob0.
  apply genCleanData_job_visited in Hjob0 as (item & Hv & Hf & _).
  simpl in Hv. rewrite <- Hmodel in Hv.
  destruct (resetTreeData_visited env _ _ _ _ Hv (m_model w) Hmodel Hf) as [d0 Hd0].
  exists item, d0. simpl. auto using Visited_itemAt.
Qed.

(** C2, as the code has it.  In a batch Start dispatches no two jobs have
    input paths that are equal once a last letter [z] or [Z] is removed, so
    that under the overwrite policy no two jobs write one file; and a batch
    built with two such jobs is not dispatched: Start ends with a warning.
    The paths are the absolute paths the tree holds. *)
Theorem onStart_dispatch_no_name_clash :
  forall env w,
    (forall w' jobs,
       onStart env w = (w', Dispatched jobs) ->
       Forall (fun job => QtPath.isRelativePath (inputPath job) = false) jobs ->
       NoDup ((fun job => chopZ (inputPath job)) <$> jobs) /\
       (SavingMethodKey (settings w) = Overwrite ->
        NoDup (outputPath <$> jobs))) /\
    (forall i j a b,
       watcherPaused w = false ->
       Forall (fun job => QtPath.isRelativePath (inputPath job) = false)
         (builtJobs env w) ->
       builtJobs env w !! i = Some a -> builtJobs env w !! j = Some b ->
       i <> j -> chopZ (inputPath a) = chopZ (inputPath b) ->
       exists warning, snd (onStart env w) = Warned warning).
Proof.
  intros env w. split.
  - intros w' jobs Hstart Habs.
    apply onStart_Dispatched in Hstart as (_ & _ & Hdupl & -> & _).
    destruct (completedJobs_paths env w) as (Hin & Hout & _).
    assert (Hnd : NoDup ((fun job => chopZ (inputPath job)) <$> builtJobs env w)).
    { apply (findDuplFile_none (builtJobs env w)) with (set := ∅); [|exact Hdupl].
      apply Forall_fmap with (f := inputPath) (P := fun p => chopZ p <> "").
      rewrite <- Hin. apply Forall_fmap.
      eapply Forall_impl; [exact Habs|]. intros job. apply chopZ_absolute. }
    assert (Hkeys : (fun job => chopZ (inputPath job)) <$> completedJobs env w
                    = (fun job => chopZ (inputPath job)) <$> builtJobs env w).
    { change (fun job => chopZ (inputPath job)) with (chopZ ∘ inputPath).
      now rewrite !list_fmap_compose, Hin. }
    split; [now rewrite Hkeys|].
    intros Hm. rewrite Hout.
    replace (outputPath <$> builtJobs env w)
      with ((fun job => chopZ (inputPath job)) <$> builtJobs env w); [exact Hnd|].
    apply Forall_fmap_ext. eapply Forall_impl; [exact (builtJobs_overwrite env w Hm)|].
    intros job Hjob. now rewrite Hjob.
  - intros i j a b Hp Habs Hi Hj Hij Heq.
    exact (proj1 (onStart_clash_warned env w i j a b Hp Habs Hi Hj Hij Heq)).
Qed.

Lemma onStart_dispatch_no_name_clash_witness :
  NoDup ((fun job => chopZ (inputPath job))
           <$> [mkConfig "/x/top.svgz" "/x/top.svg" [0%nat] ["--quiet"]
                  CompressorNone 0 false;
                mkConfig "/root/sub/a.svg" "/root/sub/a.svg"
                  [1%nat; 0%nat; 0%nat] ["--quiet"] CompressorNone 0 false]) /\
  (exists warning,
     snd (onStart sampleEnv (windowOf Overwrite "" "" "" svgAndSvgzTree))
     = Warned warning).
Proof.
  split.
  - apply (proj1 (onStart_dispatch_no_name_clash sampleEnv
                    (windowOf Overwrite "" "" "" sampleTree))
             (fst (onStart sampleEnv (windowOf Overwrite "" "" "" sampleTree)))).
    + vm_compute. reflexivity.
    + repeat constructor.
  - apply (proj2 (onStart_dispatch_no_name_clash sampleEnv
                    (windowOf Overwrite "" "" "" svgAndSvgzTree))
             0%nat 1%nat
             (mkConfig "/a/x.svg" "/a/x.svg" [0%nat] [] CompressorNone 0 false)
             (mkConfig "/a/x.svgz" "/a/x.svg" [1%nat] [] CompressorNone 0 false)).
    + reflexivity.
    + repeat constructor.
    + reflexivity.
    + reflexivity.
    + discriminate.
    + reflexivity.
Defined.

(** C2 as stated fails: under the selected-folder policy two files of one
    name from two folders pass the check, and Start dispatches two jobs that
    write one output file. *)
Lemma onStart_same_output_counterexample :
  ~ (forall jobs,
       snd (onStart sampleEnv (windowOf SelectFolder "/out" "" "" sameNameTree))
       = Dispatched jobs ->
       NoDup (outputPath <$> jobs)).
Proof.
  intros H.
  specialize (H [mkConfig "/a/x.svg" "/out/x.svg" [0%nat] ["--quiet"]
                   CompressorNone 0 false;
                 mkConfig "/b/x.svg" "/out/x.svg" [1%nat] ["--quiet"]
                   CompressorNone 0 false]).
  assert (Hrun : snd (onStart sampleEnv
                        (windowOf SelectFolder "/out" "" "" sameNameTree))
                 = Dispatched
                     [mkConfig "/a/x.svg" "/out/x.svg" [0%nat] ["--quiet"]
                        CompressorNone 0 false;
                      mkConfig "/b/x.svg" "/out/x.svg" [1%nat] ["--quiet"]
                        CompressorNone 0 false])
    by (vm_compute; reflexivity).
  specialize (H Hrun). simpl in H.
  apply NoDup_cons in H as [Hnotin _]. apply Hnotin. now left.
Qed.

(** C3.  When two of the built jobs have input paths that are equal once a
    last letter [z] or [Z] is removed, Start ends with a warning and
    dispatches nothing; when the checks before the tree is touched have
    passed, the warning is the one that names the clashing file.  So it is
    for [/a/x.svg] and [/a/x.svgz].  The paths are the absolute paths the
    tree holds. *)
Theorem onStart_rejects_svg_and_svgz :
  (forall env w i j a b,
     watcherPaused w = false ->
     Forall (fun job => QtPath.isRelativePath (inputPath job) = false)
       (builtJobs env w) ->
     builtJobs env w !! i = Some a -> builtJobs env w !! j = Some b ->
     i <> j -> chopZ (inputPath a) = chopZ (inputPath b) ->
     (exists warning, snd (onStart env w) = Warned warning) /\
     (forall jobs, snd (onStart env w) <> Dispatched jobs) /\
     (startChecks env w = None ->
      exists duplFile,
        snd (onStart env w)
        = Warned (SvgAndSvgzClash duplFile (duplFile +:+ "z")))) /\
  snd (onStart sampleEnv (windowOf SelectFolder "/out" "" "" svgAndSvgzTree))
  = Warned (SvgAndSvgzClash "/a/x.svg" "/a/x.svgz").
Proof.
  split; [|vm_compute; reflexivity].
  intros env w i j a b Hp Habs Hi Hj Hij Heq.
  destruct (onStart_clash_warned env w i j a b Hp Habs Hi Hj Hij Heq)
    as [[warning Hw] Hclash].
  split; [eauto|]. split; [|exact Hclash].
  intros jobs. rewrite Hw. discriminate.
Qed.

Lemma onStart_rejects_svg_and_svgz_witness :
  (exists warning,
     snd (onStart sampleEnv (windowOf SameFolder "" "clean_" "" svgAndSvgzTree))
     = Warned warning) /\
  (exists duplFile,
     snd (onStart sampleEnv (windowOf SameFolder "" "clean_" "" svgAndSvgzTree))
     = Warned (SvgAndSvgzClash duplFile (duplFile +:+ "z"))).
Proof.
  pose proof (proj1 onStart_rejects_svg_and_svgz sampleEnv
                (windowOf SameFolder "" "clean_" "" svgAndSvgzTree)
                0%nat 1%nat
                (mkConfig "/a/x.svg" "/a/clean_x.svg" [0%nat] []
                   CompressorNone 0 false)
                (mkConfig "/a/x.svgz" "/a/clean_x.svg" [1%nat] []
                   CompressorNone 0 false)
                eq_refl ltac:(repeat constructor) eq_refl eq_refl
                ltac:(discriminate) eq_refl) as (Hw & _ & Hclash).
  split; [exact Hw|]. apply Hclash. reflexivity.
Defined.

(** C10.  When Start ends at the check for an empty job list or at the name
    check, the window it leaves holds the reset tree: every file item under
    folders is back in the reset state, with its size read again in overwrite
    mode.  So a rejected Start can wipe the results an earlier run showed. *)
Theorem onStart_rejection_after_reset :
  (forall env w w' warning,
     onStart env w = (w', Warned warning) ->
     warning = NoFilesSelected \/ (exists a b, warning = SvgAndSvgzClash a b) ->
     m_model w'
     = resetTreeData env (m_model w) (isOverwrite (SavingMethodKey (settings w))) /\
     (forall ptr item,
        FileBelow (m_model w) ptr item ->
        dataAt (m_model w') ptr
        = Some (resetCleanerData
                  (if isOverwrite (SavingMethodKey (settings w))
                   then setSizeBefore (fsFileSize env (path (data item))) (data item)
                   else data item)))) /\
  (snd (onStart sampleEnv (windowOf SelectFolder "/out" "" "" cleanedTree))
   = Warned NoFilesSelected /\
   dataAt cleanedTree [0%nat]
   = Some (mkData "/a/x.svg" "/out/x.svg" 100 60 40 Ok "") /\
   dataAt (m_model (fst (onStart sampleEnv
                           (windowOf SelectFolder "/out" "" "" cleanedTree))))
     [0%nat]
   = Some (mkData "/a/x.svg" "" 100 0 0 Pending "")).
Proof.
  split; [|repeat split; vm_compute; reflexivity].
  intros env w w' warning Hstart Hw.
  destruct (onStart_late_warning env w w' warning Hstart Hw) as (_ & _ & Hmodel).
  split; [exact Hmodel|]. intros ptr item Hfile. rewrite Hmodel.
  now apply resetTreeData_file.
Qed.

Lemma onStart_rejection_after_reset_witness :
  dataAt
    (m_model (fst (onStart sampleEnv (windowOf Overwrite "" "" "" svgAndSvgzTree))))
    [1%nat]
  = Some (mkData "/a/x.svgz" "" 100 0 0 Pending "").
Proof.
  apply (proj2 (proj1 onStart_rejection_after_reset sampleEnv
                  (windowOf Overwrite "" "" "" svgAndSvgzTree)
                  (fst (onStart sampleEnv (windowOf Overwrite "" "" "" svgAndSvgzTree)))
                  (SvgAndSvgzClash "/a/x.svg" "/a/x.svgz")
                  ltac:(vm_compute; reflexivity)
                  (or_intror (ex_intro _ _ (ex_intro _ _ eq_refl))))
           [1%nat] (fileItem "/a/x.svgz" true Checked)).
  now apply FileBelow_child.
Defined.

(** ** The result sink *)

(** C7.  A result of kind Error puts the item it is for in the Error state
    with the message of the result as its status text; the size after, the
    ratio and the output path of the item stay as they were, as do its path
    and its size before and every other item.  For a job Start dispatched
    they stay unset, as the reset before the dispatch left them. *)
Theorem onResultReadyAt_error :
  (forall w progress msg ptr d,
     dataAt (m_model w) ptr = Some d ->
     dataAt (m_model (onResultReadyAt w progress (OutputError msg ptr))) ptr
     = Some (mkData (path d) (outPath d) (sizeBefore d) (sizeAfter d) (ratio d)
               Error msg) /\
     (forall q, q <> ptr ->
        dataAt (m_model (onResultReadyAt w progress (OutputError msg ptr))) q
        = dataAt (m_model w) q)) /\
  (forall env w w' jobs job progress msg,
     onStart env w = (w', Dispatched jobs) -> job ∈ jobs ->
     exists d,
       dataAt (m_model (onResultReadyAt w' progress
                          (OutputError msg (treeItem job)))) (treeItem job)
       = Some d /\
       status d = Error /\ statusText d = msg /\
       sizeAfter d = 0%Z /\ ratio d = 0%Z /\ outPath d = "").
Proof.
  assert (A : forall w progress msg ptr d,
     dataAt (m_model w) ptr = Some d ->
     dataAt (m_model (onResultReadyAt w progress (OutputError msg ptr))) ptr
     = Some (mkData (path d) (outPath d) (sizeBefore d) (sizeAfter d) (ratio d)
               Error msg)).
  { intros w progress msg ptr d Hd. rewrite dataAt_onResultReadyAt. simpl.
    rewrite decide_True by reflexivity. now rewrite Hd. }
  split.
  - intros w progress msg ptr d Hd. split; [now apply A|].
    intros q Hq. rewrite dataAt_onResultReadyAt. simpl.
    now rewrite decide_False by congruence.
  - intros env w w' jobs job progress msg Hstart Hjob.
    destruct (dispatched_job_item env w w' jobs job Hstart Hjob)
      as (item & d0 & Hitem & _ & Hd0).
    eexists. split.
    + apply A. unfold dataAt. rewrite Hitem. reflexivity.
    + rewrite Hd0. simpl. auto.
Qed.

Lemma onResultReadyAt_error_witness :
  dataAt
    (m_model (onResultReadyAt (windowOf Overwrite "" "" "" cleanedTree) 1
                (OutputError "parse error" [0%nat]))) [0%nat]
  = Some (mkData "/a/x.svg" "/out/x.svg" 100 60 40 Error "parse error") /\
  (exists d,
     dataAt
       (m_model (onResultReadyAt
                   (fst (onStart sampleEnv (windowOf Overwrite "" "" "" sampleTree)))
                   1 (OutputError "parse error" [0%nat]))) [0%nat]
     = Some d /\
     status d = Error /\ statusText d = "parse error" /\
     sizeAfter d = 0%Z /\ ratio d = 0%Z /\ outPath d = "").
Proof.
  split.
  - apply (proj1 (proj1 onResultReadyAt_error
                    (windowOf Overwrite "" "" "" cleanedTree) 1%Z "parse error"
                    [0%nat] (mkData "/a/x.svg" "/out/x.svg" 100 60 40 Ok "")
                    eq_refl)).
  - apply (proj2 onResultReadyAt_error sampleEnv
             (windowOf Overwrite "" "" "" sampleTree)
             (fst (onStart sampleEnv (windowOf Overwrite "" "" "" sampleTree)))
             [mkConfig "/x/top.svgz" "/x/top.svg" [0%nat] ["--quiet"]
                CompressorNone 0 false;
              mkConfig "/root/sub/a.svg" "/root/sub/a.svg"
                [1%nat; 0%nat; 0%nat] ["--quiet"] CompressorNone 0 false]
             (mkConfig "/x/top.svgz" "/x/top.svg" [0%nat] ["--quiet"]
                CompressorNone 0 false)
             1%Z "parse error").
    + vm_compute. reflexivity.
    + now left.
Defined.

(** C8.  A delivered result leaves the item it is for in the state Ok,
    Warning or Error, the kind of the result.  Hence once a result was
    delivered for every job Start dispatched, in whatever order, the item of
    every dispatched job is in one of these states and none is Pending. *)
Theorem results_leave_no_item_pending :
  (forall w progress res d,
     dataAt (m_model w) (outputItem res) = Some d ->
     exists d',
       dataAt (m_model (onResultReadyAt w progress res)) (outputItem res)
       = Some d' /\
       status d' = outputType res /\ terminal (status d')) /\
  (forall env w w' jobs results,
     onStart env w = (w', Dispatched jobs) ->
     (fun r => outputItem (snd r)) <$> results ≡ₚ treeItem <$> jobs ->
     forall job, job ∈ jobs ->
     exists d,
       dataAt (m_model (deliver w' results)) (treeItem job) = Some d /\
       terminal (status d) /\ status d <> Pending).
Proof.
  split.
  - intros w progress res d Hd. rewrite dataAt_onResultReadyAt, Hd.
    rewrite decide_True by reflexivity. eexists. split; [reflexivity|].
    rewrite applyResult_status. split; [reflexivity|apply outputType_terminal].
  - intros env w w' jobs results Hstart Hperm job Hjob.
    destruct (dispatched_job_item env w w' jobs job Hstart Hjob)
      as (item & d0 & Hitem & _ & _).
    destruct (deliver_terminal results w' (treeItem job) (data item))
      as (d & Hd & Hfor & _).
    { unfold dataAt. now rewrite Hitem. }
    exists d. split; [exact Hd|].
    assert (Ht : terminal (status d)).
    { apply Hfor. rewrite Hperm. apply list_elem_of_fmap. eauto. }
    split; [exact Ht|now apply terminal_not_Pending].
Qed.

Lemma results_leave_no_item_pending_witness :
  (exists d',
     dataAt
       (m_model (onResultReadyAt (windowOf Overwrite "" "" "" cleanedTree) 1
                   (OutputWarning (mkOkData 50 50 "/a/x.svg") "odd path" [0%nat])))
       [0%nat]
     = Some d' /\
     status d' = Warning /\ terminal (status d')) /\
  (exists d,
     dataAt
       (m_model
          (deliver (fst (onStart sampleEnv (windowOf Overwrite "" "" "" sampleTree)))
             [(1%Z, OutputError "parse error" [1%nat; 0%nat; 0%nat]);
              (2%Z, OutputOk (mkOkData 40 60 "/x/top.svg") [0%nat])]))
       [0%nat]
     = Some d /\
     terminal (status d) /\ status d <> Pending).
Proof.
  split.
  - apply (proj1 results_leave_no_item_pending
             (windowOf Overwrite "" "" "" cleanedTree) 1%Z
             (OutputWarning (mkOkData 50 50 "/a/x.svg") "odd path" [0%nat])
             (mkData "/a/x.svg" "/out/x.svg" 100 60 40 Ok "")).
    reflexivity.
  - apply (proj2 results_leave_no_item_pending sampleEnv
             (windowOf Overwrite "" "" "" sampleTree)
             (fst (onStart sampleEnv (windowOf Overwrite "" "" "" sampleTree)))
             [mkConfig "/x/top.svgz" "/x/top.svg" [0%nat] ["--quiet"]
                CompressorNone 0 false;
              mkConfig "/root/sub/a.svg" "/root/sub/a.svg"
                [1%nat; 0%nat; 0%nat] ["--quiet"] CompressorNone 0 false]
             [(1%Z, OutputError "parse error" [1%nat; 0%nat; 0%nat]);
              (2%Z, OutputOk (mkOkData 40 60 "/x/top.svg") [0%nat])]
             ltac:(vm_compute; reflexivity)
             ltac:(simpl; apply perm_swap)
             (mkConfig "/x/top.svgz" "/x/top.svg" [0%nat] ["--quiet"]
                CompressorNone 0 false)).
    now left.
Defined.

(** * Further properties of the code *)

(** ** Start: what it leaves alone, and what it hands to the jobs *)

(** X1.  A Start that resumes a paused run, or that ends at one of the checks
    of the saving method and the compressor, leaves the tree as it is.  The
    resume touches neither the settings nor the tree and shows the pause
    button again; the failed check comes after the prefix and the suffix of
    the window were saved. *)
Theorem onStart_leaves_tree_alone :
  forall env w,
    (watcherPaused w = true ->
     snd (onStart env w) = Resumed /\
     m_model (fst (onStart env w)) = m_model w /\
     settings (fst (onStart env w)) = settings w /\
     watcherPaused (fst (onStart env w)) = false /\
     pauseBtnVisible (ui (fst (onStart env w))) = true) /\
    (watcherPaused w = false ->
     forall warning,
       startChecks env w = Some warning ->
       onStart env w = (saveSettings w, Warned warning) /\
       m_model (fst (onStart env w)) = m_model w /\
       FilePrefix (settings (fst (onStart env w))) = lineEditFilePrefix (ui w) /\
       FileSuffix (settings (fst (onStart env w))) = lineEditFileSuffix (ui w)).
Proof.
  intros env w. split.
  - intros Hp. unfold onStart. rewrite Hp. simpl. auto.
  - intros Hp warning Hc.
    assert (Hrun : onStart env w = (saveSettings w, Warned warning)).
    { unfold onStart. rewrite Hp. unfold startChecks in Hc.
      destruct (checkSavingMethod env (saveSettings w) _ _) as [x|].
      - now inversion Hc.
      - destruct (checkCompressor env (settings (saveSettings w))) as [x|ct];
          [now inversion Hc|discriminate]. }
    rewrite Hrun. auto.
Qed.

Lemma onStart_leaves_tree_alone_witness :
  snd (onStart sampleEnv
         (mkMainWindow (mkUi (640, 480)%Z "" "" 3 7 true false false true)
            (settingsOf Overwrite "" "" "") cleanedTree true 4))
  = Resumed /\
  m_model (fst (onStart sampleEnv (windowOf SameFolder "" "" "" cleanedTree)))
  = cleanedTree.
Proof.
  split.
  - apply (proj1 (onStart_leaves_tree_alone sampleEnv
                    (mkMainWindow (mkUi (640, 480)%Z "" "" 3 7 true false false true)
                       (settingsOf Overwrite "" "" "") cleanedTree true 4))
             eq_refl).
  - apply (proj2 (onStart_leaves_tree_alone sampleEnv
                    (windowOf SameFolder "" "" "" cleanedTree))
             eq_refl NoPrefixOrSuffix eq_refl).
Defined.

(** The window a dispatch leaves. *)
Lemma onStart_dispatch_window env w w' jobs :
  onStart env w = (w', Dispatched jobs) ->
  ui w' = startUi (ui w) (Z.of_nat (length jobs)) /\
  settings w' = settings (saveSettings w) /\
  maxThreadCount w' = Jobs (settings w) /\
  watcherPaused w' = false /\ jobs <> [].
Proof.
  unfold onStart.
  destruct (watcherPaused w) eqn:Hp; [discriminate|].
  destruct (checkSavingMethod env (saveSettings w) _ _); [discriminate|].
  destruct (checkCompressor env (settings (saveSettings w))) as [x|ct];
    [discriminate|].
  destruct (snd (genCleanData _ _ _ _ _ _)) as [|job rest]; [discriminate|].
  destruct (negb (QStr.isEmpty (findDuplFile (job :: rest) ∅)));
    [discriminate|].
  intros H. inversion H. simpl. repeat split; auto; discriminate.
Qed.

Lemma selectedCompressor_available env w :
  selectedCompressor env w = CompressorNone \/
  (UseCompression (settings w) = true /\
   compressorIsAvailable env (selectedCompressor env w) = true).
Proof.
  unfold selectedCompressor, checkCompressor. simpl.
  destruct (UseCompression (settings w)); [|now left].
  destruct (compressorFromName env (CompressorKey (settings w))) as [|name];
    simpl; [now left|].
  destruct (compressorIsAvailable env (CompressorTool name)) eqn:Ha; simpl.
  - right. auto.
  - now left.
Qed.

(** X2.  Every job of a dispatched batch carries the same cleaner arguments,
    compression level, compress-only-SVGZ flag and compressor, and the
    compressor is either none or one that is available: Start never
    dispatches a job for a compressor that is not installed.  The batch is
    not empty, its size is the maximum of the progress bar, and the thread
    pool gets the configured job count. *)
Theorem onStart_dispatch_config :
  forall env w w' jobs,
    onStart env w = (w', Dispatched jobs) ->
    (exists ct,
       (ct = CompressorNone \/
        (UseCompression (settings w) = true /\
         compressorIsAvailable env ct = true)) /\
       forall job, job ∈ jobs ->
         args job = cleanerGenArgs env /\
         compressorType job = ct /\
         compressionLevel job = CompressionLevel (settings w) /\
         compressOnlySvgz job = CompressOnlySvgz (settings w)) /\
    jobs <> [] /\
    progressMaximum (ui w') = Z.of_nat (length jobs) /\
    progressValue (ui w') = 0%Z /\
    guiEnabled (ui w') = false /\ actionStopEnabled (ui w') = true /\
    maxThreadCount w' = Jobs (settings w).
Proof.
  intros env w w' jobs Hstart.
  destruct (onStart_dispatch_window env w w' jobs Hstart)
    as (Hui & _ & Hthreads & _ & Hne).
  apply onStart_Dispatched in Hstart as (_ & _ & _ & -> & _).
  split.
  - exists (selectedCompressor env w). split; [apply selectedCompressor_available|].
    intros job Hjob. unfold completedJobs in Hjob.
    apply list_elem_of_fmap in Hjob as (job0 & -> & _). simpl. auto.
  - rewrite Hui. simpl. repeat split; auto.
Qed.

Lemma onStart_dispatch_config_witness :
  progressMaximum
    (ui (fst (onStart sampleEnv (windowOf Overwrite "" "" "" sampleTree))))
  = 2%Z.
Proof.
  apply (proj1 (proj2 (proj2 (onStart_dispatch_config sampleEnv
           (windowOf Overwrite "" "" "" sampleTree)
           (fst (onStart sampleEnv (windowOf Overwrite "" "" "" sampleTree)))
           [mkConfig "/x/top.svgz" "/x/top.svg" [0%nat] ["--quiet"]
              CompressorNone 0 false;
            mkConfig "/root/sub/a.svg" "/root/sub/a.svg"
              [1%nat; 0%nat; 0%nat] ["--quiet"] CompressorNone 0 false]
           ltac:(vm_compute; reflexivity))))).
Defined.

(** ** The reset and the job list *)

Lemma genCleanData_reset settings env ow method outFolder root :
  forall rootPtr st,
    genCleanData settings (resetTreeData env root ow) rootPtr method outFolder st
    = genCleanData settings root rootPtr method outFolder st.
Proof.
  induction root as [d e c f items IH] using TreeItem_forall_ind.
  intros rootPtr st. rewrite !genCleanData_eq, resetTreeData_children.
  simpl childrenList. generalize 0%nat. revert st.
  induction IH as [|item rest Hitem _ IHrest]; intros st idx; [reflexivity|].
  rewrite fmap_cons.
  change (genCleanDataFrom settings (resetChild env ow item :: (resetChild env ow <$> rest))
            idx rootPtr method outFolder st)
    with (genCleanDataFrom settings (resetChild env ow <$> rest) (S idx) rootPtr
            method outFolder
            (if negb (isEnabled (resetChild env ow item))
                || negb (CheckState_eqb (checkState (resetChild env ow item)) Checked)
             then st
             else if isFolder (resetChild env ow item) then
               genCleanData settings (resetChild env ow item) (rootPtr ++ [idx])
                 method outFolder
                 (if QStr.isEmpty (fst st)
                  then path (data (resetChild env ow item)) else fst st, snd st)
             else
               (fst st,
                snd st ++ [fileConfig settings method outFolder (fst st)
                             (resetChild env ow item) (rootPtr ++ [idx])]))).
  destruct (resetChild_flags env ow item) as (Hf & He & Hc & Hpath).
  rewrite IHrest, He, Hc, Hf, Hpath. simpl. f_equal.
  destruct (negb (isEnabled item) || negb (CheckState_eqb (checkState item) Checked));
    [reflexivity|].
  destruct (isFolder item) eqn:Hfolder.
  - unfold resetChild. rewrite Hfolder. apply Hitem.
  - unfold fileConfig. now rewrite Hpath.
Qed.

(** X3.  Resetting the tree does not change the jobs that are built from it:
    the traversal of the reset tree gives the root folder and the jobs of the
    tree as it was, so that the batch Start builds is the batch of the tree
    the user sees. *)
Theorem resetTreeData_same_jobs :
  (forall settings env ow method outFolder root rootPtr st,
     genCleanData settings (resetTreeData env root ow) rootPtr method outFolder st
     = genCleanData settings root rootPtr method outFolder st) /\
  (forall env w,
     builtJobs env w
     = snd (genCleanData (settings (saveSettings w)) (m_model w) []
              (SavingMethodKey (settings w)) (OutputFolder (settings w))
              ("", []))).
Proof.
  split.
  - intros. apply genCleanData_reset.
  - intros env w. unfold builtJobs. now rewrite genCleanData_reset.
Qed.

Lemma itemAt_children_only d e c f d' e' c' f' items ptr :
  ptr <> [] ->
  itemAt (TreeNode d e c f items) ptr = itemAt (TreeNode d' e' c' f' items) ptr.
Proof. destruct ptr; [congruence|reflexivity]. Qed.

Lemma resetChild_file env ow item :
  isFolder item = false ->
  resetChild env ow item
  = TreeNode
      (resetCleanerData
         (if ow then setSizeBefore (fsFileSize env (path (data item))) (data item)
          else data item))
      (isEnabled item) (checkState item) false (childrenList item).
Proof. intros Hf. unfold resetChild. now rewrite Hf. Qed.

Lemma resetTreeData_shape env ow ptr :
  forall root,
    itemShape <$> itemAt (resetTreeData env root ow) ptr
    = itemShape <$> itemAt root ptr.
Proof.
  induction ptr as [|i ptr IH]; intros root.
  - simpl. unfold itemShape. rewrite resetTreeData_children, length_fmap.
    now destruct root.
  - simpl. rewrite resetTreeData_children, list_lookup_fmap.
    destruct (childrenList root !! i) as [x|]; [|reflexivity]. simpl.
    destruct (isFolder x) eqn:Hf.
    + unfold resetChild. rewrite Hf. apply IH.
    + rewrite (resetChild_file env ow x Hf). destruct ptr as [|j ptr].
      * simpl. unfold itemShape. simpl. rewrite Hf. now destruct ow.
      * destruct x as [d e c f items]. reflexivity.
Qed.

Lemma resetTreeData_folder_data env ow ptr :
  forall root item,
    itemAt root ptr = Some item -> isFolder item = true ->
    dataAt (resetTreeData env root ow) ptr = Some (data item).
Proof.
  induction ptr as [|i ptr IH]; intros root item Hitem Hfolder.
  - inversion Hitem; subst item. now destruct root.
  - rewrite dataAt_cons, resetTreeData_children, list_lookup_fmap.
    simpl in Hitem.
    destruct (childrenList root !! i) as [x|]; [|discriminate]. simpl.
    destruct (isFolder x) eqn:Hf.
    + unfold resetChild. rewrite Hf. now apply IH.
    + rewrite (resetChild_file env ow x Hf). destruct ptr as [|j ptr].
      * inversion Hitem; subst x. congruence.
      * destruct x as [d e c f items]. unfold dataAt. simpl in *.
        now rewrite Hitem.
Qed.

(** X4.  Resetting the tree keeps its shape: at every place the reset tree
    has an item exactly when the tree had one, with the same path, enabled
    flag, check state, kind and number of children; and the data of a folder
    item is not touched at all, only files are reset. *)
Theorem resetTreeData_keeps_shape :
  forall env ow root ptr,
    itemShape <$> itemAt (resetTreeData env root ow) ptr
    = itemShape <$> itemAt root ptr /\
    (forall item,
       itemAt root ptr = Some item -> isFolder item = true ->
       dataAt (resetTreeData env root ow) ptr = Some (data item)).
Proof.
  intros env ow root ptr. split.
  - apply resetTreeData_shape.
  - intros item. apply resetTreeData_folder_data.
Qed.

Lemma resetTreeData_keeps_shape_witness :
  dataAt (resetTreeData sampleEnv sampleTree true) [1%nat; 0%nat]
  = Some (mkData "/root/sub" "" 0 0 0 Pending "").
Proof.
  apply (proj2 (resetTreeData_keeps_shape sampleEnv true sampleTree
                  [1%nat; 0%nat])
           (folderItem "/root/sub" true Checked
              [fileItem "/root/sub/a.svg" true Checked;
               fileItem "/root/sub/b.svg" true Unchecked]));
    reflexivity.
Defined.

(** ** The two late warnings of Start *)

Lemma builtJobs_tree env w :
  builtJobs env w
  = snd (genCleanData (settings (saveSettings w)) (m_model w) []
           (SavingMethodKey (settings w)) (OutputFolder (settings w)) ("", [])).
Proof. unfold builtJobs. now rewrite genCleanData_reset. Qed.

(** X5.  Once the checks of the saving method and the compressor have
    passed, Start warns that no files are selected exactly when the tree has
    no file that is enabled and checked under folders that are enabled and
    checked. *)
Theorem onStart_no_files_selected :
  forall env w,
    watcherPaused w = false -> startChecks env w = None ->
    (snd (onStart env w) = Warned NoFilesSelected <->
     ~ exists ptr item,
         ptr <> [] /\ itemAt (m_model w) ptr = Some item /\
         isFolder item = false /\
         isEnabled item = true /\ checkState item = Checked /\
         gatesOpen (m_model w) ptr).
Proof.
  intros env w Hp Hc.
  destruct (onStart_outcome env w) as [-> _]. unfold startOutcome.
  rewrite Hp, Hc. split.
  - intros Hout (ptr & item & Hne & Hitem & Hf & He & Hck & Hg).
    assert (Hv : Visited (m_model w) ptr item) by (apply Visited_spec; auto).
    destruct (genCleanData_visited_job (settings (saveSettings w))
                (SavingMethodKey (settings w)) (OutputFolder (settings w))
                (m_model w) ptr item Hv Hf) as (job & Hjob & _).
    rewrite <- (builtJobs_tree env w) in Hjob.
    destruct (builtJobs env w) as [|job0 rest]; [inversion Hjob|].
    cbv zeta in Hout.
    destruct (QStr.isEmpty (findDuplFile (job0 :: rest) ∅)); discriminate.
  - intros Hnone. destruct (builtJobs env w) as [|job rest] eqn:Hb; [reflexivity|].
    exfalso. apply Hnone.
    assert (Hjob : job ∈ builtJobs env w) by (rewrite Hb; now left).
    rewrite builtJobs_tree in Hjob.
    apply genCleanData_job_visited in Hjob as (item & Hv & Hf & _).
    apply Visited_spec in Hv as (Hne & Hitem & He & Hck & Hg).
    exists (treeItem job), item. auto 10.
Qed.

Lemma onStart_no_files_selected_witness :
  snd (onStart sampleEnv (windowOf Overwrite "" "" "" partlyCheckedTree))
  = Warned NoFilesSelected <->
  ~ exists ptr item,
      ptr <> [] /\ itemAt partlyCheckedTree ptr = Some item /\
      isFolder item = false /\
      isEnabled item = true /\ checkState item = Checked /\
      gatesOpen partlyCheckedTree ptr.
Proof.
  apply (onStart_no_files_selected sampleEnv
           (windowOf Overwrite "" "" "" partlyCheckedTree)); reflexivity.
Defined.

Lemma findDuplFile_found (data : list Config) :
  forall (set : gset QString) d,
    findDuplFile data set = d -> d <> "" ->
    exists j job,
      data !! j = Some job /\ chopZ (inputPath job) = d /\
      (d ∈ set \/
       exists i job', (i < j)%nat /\ data !! i = Some job' /\
                      chopZ (inputPath job') = d).
Proof.
  induction data as [|t data IH]; intros set d Hfind Hne; simpl in Hfind.
  { congruence. }
  destruct (decide (chopZ (inputPath t) ∈ set)) as [Hin|Hnotin].
  - exists 0%nat, t. subst d. auto.
  - destruct (IH _ d Hfind Hne) as (j & job & Hj & Hkey & Hwhere).
    exists (S j), job. split; [exact Hj|]. split; [exact Hkey|].
    destruct Hwhere as [[Hd|Hd]%elem_of_union|(i & job' & Hlt & Hi & Hkey')].
    + right. exists 0%nat, t. apply elem_of_singleton in Hd.
      split; [lia|]. split; [reflexivity|congruence].
    + now left.
    + right. exists (S i), job'. split; [lia|]. auto.
Qed.

(** X6.  The warning about an SVG and an SVGZ file of one name is never a
    false alarm: the file it names is the input path, without a last [z] or
    [Z], of two different jobs of the built batch, and the second name shown
    is the first with a [z] appended. *)
Theorem onStart_clash_is_real :
  forall env w w' file1 file2,
    onStart env w = (w', Warned (SvgAndSvgzClash file1 file2)) ->
    file2 = file1 +:+ "z" /\ file1 <> "" /\
    exists i j job1 job2,
      (i < j)%nat /\
      builtJobs env w !! i = Some job1 /\ builtJobs env w !! j = Some job2 /\
      chopZ (inputPath job1) = file1 /\ chopZ (inputPath job2) = file1.
Proof.
  intros env w w' file1 file2 Hstart.
  destruct (onStart_outcome env w) as [Hout _]. rewrite Hstart in Hout.
  simpl in Hout. unfold startOutcome in Hout.
  destruct (watcherPaused w); [discriminate|].
  destruct (startChecks env w) as [x|] eqn:Hc.
  { apply startChecks_warning in Hc. inversion Hout; subst x.
    destruct Hc as [?|[?|?]]; discriminate. }
  destruct (builtJobs env w) as [|job rest] eqn:Hb; [discriminate|].
  cbv zeta in Hout.
  destruct (findDuplFile (job :: rest) ∅) as [|a d] eqn:Hd;
    [discriminate|].
  change (QStr.isEmpty (String a d)) with false in Hout.
  inversion Hout; subst file1 file2.
  split; [reflexivity|]. split; [discriminate|].
  destruct (findDuplFile_found (job :: rest) ∅ (String a d) Hd)
    as (j & job2 & Hj & Hkey & [Hin|(i & job1 & Hlt & Hi & Hkey')]);
    [discriminate|now apply not_elem_of_empty in Hin|].
  exists i, j, job1, job2. auto.
Qed.

Lemma onStart_clash_is_real_witness :
  exists i j job1 job2,
    (i < j)%nat /\
    builtJobs sampleEnv (windowOf Overwrite "" "" "" svgAndSvgzTree) !! i
    = Some job1 /\
    builtJobs sampleEnv (windowOf Overwrite "" "" "" svgAndSvgzTree) !! j
    = Some job2 /\
    chopZ (inputPath job1) = "/a/x.svg" /\ chopZ (inputPath job2) = "/a/x.svg".
Proof.
  apply (proj2 (proj2 (onStart_clash_is_real sampleEnv
           (windowOf Overwrite "" "" "" svgAndSvgzTree)
           (fst (onStart sampleEnv (windowOf Overwrite "" "" "" svgAndSvgzTree)))
           "/a/x.svg" "/a/x.svgz" ltac:(vm_compute; reflexivity)))).
Defined.

(** ** The same-folder policy and the input file *)

Lemma cutLast_Some (sep : ascii) (s : QString) :
  forall b e,
    QStr.cutLast sep s = Some (b, e) ->
    s = b +:+ String sep e /\ QStr.cutLast sep e = None.
Proof.
  induction s as [|a s IH]; intros b e H; simpl in H; [discriminate|].
  destruct (QStr.cutLast sep s) as [[b' e']|] eqn:E.
  - inversion H; subst b e. destruct (IH b' e' eq_refl) as [-> He].
    split; [reflexivity|exact He].
  - destruct (Ascii.eqb a sep) eqn:Ha; [|discriminate].
    inversion H; subst b e. apply Ascii.eqb_eq in Ha. subst a.
    split; [reflexivity|exact E].
Qed.

Lemma contains_append (s t : QString) (c : ascii) :
  QStr.contains (s +:+ t) c = QStr.contains s c || QStr.contains t c.
Proof.
  induction s as [|a s IH]; unapp; [reflexivity|].
  rewrite IH. now rewrite orb_assoc.
Qed.

Lemma genOutputPath_SameFolder_eq settings outFolder rootFolder p :
  genOutputPath settings outFolder rootFolder p SameFolder
  = QtPath.absolutePath p +:+ "/" +:+ FilePrefix settings
      +:+ QtPath.completeBaseName p +:+ FileSuffix settings +:+ ".svg".
Proof.
  rewrite genOutputPath_chopZ. unfold outPathOfMethod.
  rewrite chopZ_dot_svg. unfold QtPath.separator.
  now rewrite !append_assoc.
Qed.

(** Two texts with a last dot each are equal only part by part. *)
Lemma last_dot_inj (x y e1 e2 : QString) :
  QStr.cutLast "." e1 = None -> QStr.cutLast "." e2 = None ->
  x +:+ String "." e1 = y +:+ String "." e2 -> x = y /\ e1 = e2.
Proof.
  intros H1 H2 Heq.
  pose proof (cutLast_append "."%char x e1 H1) as C1.
  pose proof (cutLast_append "."%char y e2 H2) as C2.
  rewrite Heq in C1. rewrite C1 in C2. now inversion C2.
Qed.

Lemma sameFolder_fixed_lengths settings outFolder rootFolder p :
  genOutputPath settings outFolder rootFolder p SameFolder = p ->
  (String.length (FilePrefix settings)
   + String.length (FileSuffix settings) = 0)%nat.
Proof.
  rewrite genOutputPath_SameFolder_eq.
  unfold QtPath.absolutePath, QtPath.entryPath, QtPath.completeBaseName,
    QtPath.fileName.
  generalize (FilePrefix settings) (FileSuffix settings). intros P S.
  destruct (QStr.cutLast "/" p) as [[d n]|] eqn:Hslash.
  - apply cutLast_Some in Hslash as [Hp Hn].
    destruct (QStr.cutLast "." n) as [[b e]|] eqn:Hdot.
    + apply cutLast_Some in Hdot as [Hnb He]. subst n p. intros Heq.
      assert (Hcut :
        ((match d with "" => "/" | String _ _ => d end) +:+ "/" +:+ P +:+ b +:+ S)
        = d +:+ String "/" b /\ "svg" = e).
      { apply last_dot_inj; [reflexivity|exact He|].
        transitivity (d +:+ String "/" (b +:+ String "." e)).
        - rewrite <- Heq. rewrite !append_assoc. reflexivity.
        - rewrite append_assoc. reflexivity. }
      destruct Hcut as [Hcut _].
      apply (f_equal String.length) in Hcut.
      rewrite !length_append in Hcut. simpl in Hcut.
      destruct d; simpl in Hcut; lia.
    + subst p. intros Heq.
      apply (f_equal String.length) in Heq.
      rewrite !length_append in Heq. simpl in Heq.
      destruct d; simpl in Heq; lia.
  - destruct (QStr.cutLast "." p) as [[b e]|] eqn:Hdot.
    + apply cutLast_Some in Hdot as [Hnb He]. intros Heq.
      assert (Hcut : ("." +:+ "/" +:+ P +:+ b +:+ S) = b /\ "svg" = e).
      { apply last_dot_inj; [reflexivity|exact He|].
        transitivity p; [|exact Hnb].
        rewrite <- Heq. rewrite !append_assoc. reflexivity. }
      destruct Hcut as [Hcut _].
      apply (f_equal String.length) in Hcut.
      rewrite !length_append in Hcut. simpl in Hcut. lia.
    + intros Heq. apply (f_equal String.length) in Heq.
      rewrite !length_append in Heq. simpl in Heq. lia.
Qed.

Lemma length_zero_empty (s : QString) : String.length s = 0%nat -> s = "".
Proof. now destruct s. Qed.

Lemma sameFolder_not_input settings outFolder rootFolder p :
  FilePrefix settings <> "" \/ FileSuffix settings <> "" ->
  genOutputPath settings outFolder rootFolder p SameFolder <> p.
Proof.
  intros Hne Heq. apply sameFolder_fixed_lengths in Heq.
  destruct Hne as [H|H]; apply H, length_zero_empty; lia.
Qed.

(** X7.  Under the same-folder policy the output path differs from the input
    path whenever a prefix or a suffix is configured, whatever the path is;
    with neither, an input [dir/name.svg] is its own output path, which is
    what the prefix-or-suffix check of Start guards against. *)
Theorem genOutputPath_same_folder_not_input :
  (forall settings outFolder rootFolder p,
     FilePrefix settings <> "" \/ FileSuffix settings <> "" ->
     genOutputPath settings outFolder rootFolder p SameFolder <> p) /\
  (forall settings outFolder rootFolder dir name,
     FilePrefix settings = "" -> FileSuffix settings = "" ->
     dir <> "" -> QStr.contains name "/" = false ->
     genOutputPath settings outFolder rootFolder
       (dir +:+ "/" +:+ name +:+ ".svg") SameFolder
     = dir +:+ "/" +:+ name +:+ ".svg").
Proof.
  split; [apply sameFolder_not_input|].
  intros settings outFolder rootFolder dir name Hp Hs Hdir Hname.
  rewrite genOutputPath_SameFolder_eq, Hp, Hs.
  assert (Hcut : QStr.cutLast "/" (dir +:+ "/" +:+ name +:+ ".svg")
                 = Some (dir, name +:+ ".svg")).
  { apply (cutLast_append "/"%char dir (name +:+ ".svg")).
    apply contains_cutLast. rewrite contains_append, Hname. reflexivity. }
  unfold QtPath.absolutePath, QtPath.entryPath, QtPath.completeBaseName,
    QtPath.fileName.
  rewrite Hcut.
  pose proof (cutLast_append "."%char name "svg" eq_refl) as Hdot.
  change (String "." "svg") with ".svg" in Hdot. rewrite Hdot.
  destruct dir; [congruence|reflexivity].
Qed.

Lemma genOutputPath_same_folder_not_input_witness :
  genOutputPath (settingsOf SameFolder "" "" "_clean") "" "" "/a/b.svg" SameFolder
  <> "/a/b.svg" /\
  genOutputPath (settingsOf SameFolder "" "" "") "" "" "/a/b.c.svg" SameFolder
  = "/a/b.c.svg".
Proof.
  split.
  - apply (proj1 genOutputPath_same_folder_not_input
             (settingsOf SameFolder "" "" "_clean") "" "" "/a/b.svg").
    right. discriminate.
  - exact (proj2 genOutputPath_same_folder_not_input
             (settingsOf SameFolder "" "" "") "" "" "/a" "b.c"
             eq_refl eq_refl ltac:(discriminate) eq_refl).
Defined.




(** ** More on the result sink *)

(** X9.  A result of kind Ok puts the item it is for in the Ok state with the
    size, ratio and output path of the result, and keeps the status text the
    item had; a result of kind Warning does the same with the Warning state
    and the message of the result as status text.  Neither changes the path
    or the size before of the item, nor any other item. *)
Theorem onResultReadyAt_success :
  forall w progress okd ptr d,
    dataAt (m_model w) ptr = Some d ->
    dataAt (m_model (onResultReadyAt w progress (OutputOk okd ptr))) ptr
    = Some (mkData (path d) (okOutputPath okd) (sizeBefore d) (okOutSize okd)
              (okRatio okd) Ok (statusText d)) /\
    (forall msg,
       dataAt (m_model (onResultReadyAt w progress (OutputWarning okd msg ptr))) ptr
       = Some (mkData (path d) (okOutputPath okd) (sizeBefore d) (okOutSize okd)
                 (okRatio okd) Warning msg)) /\
    (forall res q,
       outputItem res = ptr -> q <> ptr ->
       dataAt (m_model (onResultReadyAt w progress res)) q
       = dataAt (m_model w) q).
Proof.
  intros w progress okd ptr d Hd. split; [|split].
  - rewrite dataAt_onResultReadyAt. simpl.
    rewrite decide_True by reflexivity. now rewrite Hd.
  - intros msg. rewrite dataAt_onResultReadyAt. simpl.
    rewrite decide_True by reflexivity. now rewrite Hd.
  - intros res q Hres Hq. rewrite dataAt_onResultReadyAt.
    now rewrite decide_False by congruence.
Qed.

Lemma onResultReadyAt_success_witness :
  dataAt
    (m_model (onResultReadyAt (windowOf Overwrite "" "" "" cleanedTree) 1
                (OutputOk (mkOkData 50 50 "/a/x.svg") [0%nat]))) [0%nat]
  = Some (mkData "/a/x.svg" "/a/x.svg" 100 50 50 Ok "").
Proof.
  apply (proj1 (onResultReadyAt_success (windowOf Overwrite "" "" "" cleanedTree)
                  1%Z (mkOkData 50 50 "/a/x.svg") [0%nat]
                  (mkData "/a/x.svg" "/out/x.svg" 100 60 40 Ok "") eq_refl)).
Defined.

Lemma alter_same_commute {A} (f g : A -> A) (i : nat) (l : list A) :
  (forall x, l !! i = Some x -> f (g x) = g (f x)) ->
  alter f i (alter g i l) = alter g i (alter f i l).
Proof.
  intros H. rewrite !list_alter_alter_eq. apply list_alter_ext; [|reflexivity].
  intros x Hx. simpl. auto.
Qed.

(** Mutations of two different items can be run in either order. *)
Lemma updateItem_commute f g p :
  forall q t,
    p <> q ->
    updateItem f p (updateItem g q t) = updateItem g q (updateItem f p t).
Proof.
  induction p as [|i p IH]; intros q t Hne.
  - destruct q as [|j q]; [congruence|reflexivity].
  - destruct q as [|j q]; [reflexivity|].
    simpl. f_equal. destruct (decide (i = j)) as [<-|Hij].
    + apply alter_same_commute. intros x _. apply IH. congruence.
    + now apply list_alter_alter_ne.
Qed.

Lemma deliver_model results :
  forall w,
    m_model (deliver w results)
    = fold_left (fun t r => updateItem (applyResult (snd r)) (outputItem (snd r)) t)
        results (m_model w).
Proof.
  unfold deliver. induction results as [|r results IH]; intros w; [reflexivity|].
  simpl. now rewrite IH.
Qed.

Lemma fold_results_perm (rs rs' : list (Z * Output)) :
  rs ≡ₚ rs' ->
  NoDup ((fun r => outputItem (snd r)) <$> rs) ->
  forall t,
    fold_left (fun t r => updateItem (applyResult (snd r)) (outputItem (snd r)) t) rs t
    = fold_left (fun t r => updateItem (applyResult (snd r)) (outputItem (snd r)) t) rs' t.
Proof.
  induction 1 as [|x l l' Hperm IH|x y l|l l' l'' H1 IH1 H2 IH2]; intros Hnd t.
  - reflexivity.
  - simpl. apply IH. rewrite fmap_cons in Hnd. now apply NoDup_cons in Hnd.
  - simpl. f_equal. apply updateItem_commute.
    rewrite !fmap_cons in Hnd. apply NoDup_cons in Hnd as [Hnotin _].
    intros Heq. apply Hnotin. rewrite Heq. now left.
  - rewrite IH1 by exact Hnd. apply IH2. now rewrite <- H1.
Qed.

(** X10.  The tree the results leave does not depend on the order of their
    delivery: two deliveries of the same results, each for an item of its
    own, in any two orders end with the same tree. *)
Theorem deliver_any_order :
  forall w results results',
    results ≡ₚ results' ->
    NoDup ((fun r => outputItem (snd r)) <$> results) ->
    m_model (deliver w results) = m_model (deliver w results').
Proof.
  intros w results results' Hperm Hnd.
  rewrite !deliver_model. now apply fold_results_perm.
Qed.

Lemma deliver_any_order_witness :
  m_model
    (deliver (windowOf Overwrite "" "" "" sampleTree)
       [(1%Z, OutputError "parse error" [1%nat; 0%nat; 0%nat]);
        (2%Z, OutputOk (mkOkData 40 60 "/x/top.svg") [0%nat])])
  = m_model
      (deliver (windowOf Overwrite "" "" "" sampleTree)
         [(2%Z, OutputOk (mkOkData 40 60 "/x/top.svg") [0%nat]);
          (1%Z, OutputError "parse error" [1%nat; 0%nat; 0%nat])]).
Proof.
  apply deliver_any_order.
  - apply perm_swap.
  - apply (bool_decide_unpack _). vm_compute. exact I.
Defined.

(** ** Files beside the root folder *)

Lemma skipCommon_diverge (cs ds fs : list QString) (d f : QString) :
  d <> f ->
  QtPath.skipCommon (cs ++ d :: ds) (cs ++ f :: fs) = (d :: ds, f :: fs).
Proof.
  intros Hne. induction cs as [|c cs IH]; simpl.
  - destruct (String.eqb_spec d f); [congruence|reflexivity].
  - now rewrite String.eqb_refl.
Qed.

Lemma genOutputPath_SelectFolder_eq settings outFolder rootFolder p :
  rootFolder <> "" ->
  genOutputPath settings outFolder rootFolder p SelectFolder
  = chopZ (outFolder +:+ "/" +:+ QtPath.dirName rootFolder +:+ "/"
             +:+ QtPath.relativeFilePath rootFolder p).
Proof.
  intros Hr. rewrite genOutputPath_chopZ. unfold outPathOfMethod.
  rewrite (isEmpty_false _ Hr). unfold QtPath.separator.
  now rewrite !append_assoc.
Qed.

(** X11.  A file that is not below the root folder of the batch is resolved
    through steps up: when the root folder and the file part ways after the
    common elements [cs], the relative path is one [../] for every further
    element of the root folder and then the rest of the file's path, and the
    selected-folder output path is the output folder, the name of the root
    folder, these steps up and that rest.  Such a file is not written below
    the root folder's place in the output folder. *)
Theorem genOutputPath_beside_root_folder :
  forall settings outFolder cs d ds f fs name,
    Forall pathElement cs -> Forall pathElement (d :: ds) ->
    Forall pathElement (f :: fs) ->
    d <> f -> last (d :: ds) = Some name ->
    QtPath.relativeFilePath (absPath (cs ++ d :: ds)) (absPath (cs ++ f :: fs))
    = stepsUp (S (length ds)) +:+ QStr.join "/" (f :: fs) /\
    genOutputPath settings outFolder (absPath (cs ++ d :: ds))
      (absPath (cs ++ f :: fs)) SelectFolder
    = chopZ (outFolder +:+ "/" +:+ name +:+ "/"
               +:+ stepsUp (S (length ds)) +:+ QStr.join "/" (f :: fs)).
Proof.
  intros settings outFolder cs d ds f fs name Hcs Hds Hfs Hne Hlast.
  assert (Hrel :
    QtPath.relativeFilePath (absPath (cs ++ d :: ds)) (absPath (cs ++ f :: fs))
    = stepsUp (S (length ds)) +:+ QStr.join "/" (f :: fs)).
  { unfold QtPath.relativeFilePath.
    change (QtPath.isRelativePath (absPath (cs ++ f :: fs))) with false.
    change (QtPath.isRelativePath (absPath (cs ++ d :: ds))) with false.
    simpl orb. cbv iota.
    rewrite !splitSkipEmpty_absPath by (apply Forall_app; auto).
    rewrite skipCommon_diverge by exact Hne. reflexivity. }
  split; [exact Hrel|].
  rewrite genOutputPath_SelectFolder_eq by (unfold absPath; discriminate).
  rewrite Hrel. apply last_Some in Hlast as [ds' Hds'].
  rewrite Hds', app_assoc, dirName_absPath; [reflexivity|].
  rewrite Hds' in Hds. apply Forall_app in Hds as [_ Hname].
  now inversion Hname.
Qed.

Lemma genOutputPath_beside_root_folder_witness :
  QtPath.relativeFilePath "/home/me/icons" "/home/you/a.svg" = "../../you/a.svg" /\
  genOutputPath (settingsOf SelectFolder "/out" "" "") "/out" "/home/me/icons"
    "/home/you/a.svg" SelectFolder
  = "/out/icons/../../you/a.svg".
Proof.
  exact (genOutputPath_beside_root_folder
           (settingsOf SelectFolder "/out" "" "") "/out"
           ["home"] "me" ["icons"] "you" ["a.svg"] "icons"
           ltac:(repeat (constructor; [split; [discriminate|reflexivity]|]);
                 constructor)
           ltac:(repeat (constructor; [split; [discriminate|reflexivity]|]);
                 constructor)
           ltac:(repeat (constructor; [split; [discriminate|reflexivity]|]);
                 constructor)
           ltac:(discriminate) eq_refl).
Defined.

(** ** The update check *)

(** X12.  A manual update check always runs and leaves the settings as they
    are.  An automatic check runs exactly when checking is enabled and the
    last check was not today; when it runs it records today, and a second
    automatic check on the same day never runs: at most one automatic check a
    day. *)
Theorem checkUpdates_once_a_day :
  forall s today,
    checkUpdates s today true = (s, Some true) /\
    (snd (checkUpdates s today false) = Some false <->
     CheckUpdatesKey s = true /\ LastUpdatesCheck s <> Some today) /\
    (snd (checkUpdates s today false) = Some false ->
     LastUpdatesCheck (fst (checkUpdates s today false)) = Some today) /\
    (snd (checkUpdates s today false) = None ->
     fst (checkUpdates s today false) = s) /\
    snd (checkUpdates (fst (checkUpdates s today false)) today false) = None.
Proof.
  intros [enabled last] today. unfold checkUpdates. simpl.
  assert (Hdate : forall d, isDate d today = true <-> d = Some today).
  { intros [d|]; simpl; [|split; discriminate].
    rewrite Z.eqb_eq. split; congruence. }
  destruct enabled; simpl.
  - destruct (isDate last today) eqn:Hd; simpl.
    + apply Hdate in Hd. rewrite Hd. simpl. rewrite Z.eqb_refl.
      repeat split; try discriminate; auto.
      intros [_ H]. congruence.
    + rewrite Z.eqb_refl. repeat split; auto; try discriminate.
      intros ->. assert (isDate (Some today) today = true) by now apply Hdate.
      congruence.
  - repeat split; try discriminate; auto. intros [H _]. discriminate.
Qed.

Lemma checkUpdates_once_a_day_witness :
  LastUpdatesCheck
    (fst (checkUpdates (mkUpdateSettings true (Some 100%Z)) 101%Z false))
  = Some 101%Z.
Proof.
  apply (proj1 (proj2 (proj2 (checkUpdates_once_a_day
           (mkUpdateSettings true (Some 100%Z)) 101%Z)))).
  reflexivity.
Defined.

(** ** Adding files *)

Lemma addSelectedFiles_spec isSymLink files :
  forall st,
    addSelectedFiles isSymLink files st
    = (fst st ++ filter (fun f => isSymLink f = false) files,
       snd st || existsb isSymLink files).
Proof.
  induction files as [|file files IH]; intros [added warned]; simpl.
  - now rewrite app_nil_r, orb_false_r.
  - rewrite IH. destruct (isSymLink file) eqn:Hs; simpl.
    + rewrite filter_cons_False by congruence. now rewrite orb_true_r.
    + rewrite filter_cons_True by assumption. now rewrite <- app_assoc.
Qed.

(** X13.  Adding files hands to the model exactly the selected files that
    are not symlinks, in the order of the selection, so that no symlink is
    ever added; the warning that symlinks are not supported is shown exactly
    when a symlink was selected; and the folder of the dialog is stored as
    the last path.  A dismissed dialog does nothing. *)
Theorem addFiles_skips_symlinks :
  forall isSymLink,
    on_actionAddFiles_triggered isSymLink None = None /\
    forall directory files,
      exists r,
        on_actionAddFiles_triggered isSymLink (Some (directory, files)) = Some r /\
        storedLastPath r = directory /\
        addFileCalls r = filter (fun f => isSymLink f = false) files /\
        (forall f, f ∈ addFileCalls r -> isSymLink f = false) /\
        (symlinkWarning r = true <-> exists f, f ∈ files /\ isSymLink f = true).
Proof.
  intros isSymLink. split; [reflexivity|]. intros directory files.
  eexists. split; [reflexivity|]. simpl.
  rewrite addSelectedFiles_spec. simpl. repeat split.
  - now intros f [Hf _]%list_elem_of_filter.
  - intros (f & Hin & Hf)%existsb_exists. exists f.
    split; [now apply list_elem_of_In|exact Hf].
  - intros (f & Hin & Hf). apply existsb_exists. exists f.
    split; [now apply list_elem_of_In|exact Hf].
Qed.

Lemma addFiles_skips_symlinks_witness :
  exists r,
    on_actionAddFiles_triggered (fun f => String.eqb f "/d/link.svg")
      (Some ("/d", ["/d/a.svg"; "/d/link.svg"; "/d/b.svgz"]))
    = Some r /\
    storedLastPath r = "/d" /\
    addFileCalls r
    = filter (fun f => String.eqb f "/d/link.svg" = false)
        ["/d/a.svg"; "/d/link.svg"; "/d/b.svgz"] /\
    (forall f, f ∈ addFileCalls r -> String.eqb f "/d/link.svg" = false) /\
    (symlinkWarning r = true <->
     exists f, f ∈ ["/d/a.svg"; "/d/link.svg"; "/d/b.svgz"] /\
               String.eqb f "/d/link.svg" = true).
Proof.
  exact (proj2 (addFiles_skips_symlinks (fun f => String.eqb f "/d/link.svg"))
           "/d" ["/d/a.svg"; "/d/link.svg"; "/d/b.svgz"]).
Defined.

(** ** The indentation box of the output page *)

Lemma findDataFrom_range (items : list (QString * QString)) (value : QString) :
  forall i,
    (i >= 0)%Z ->
    OutputPage.findDataFrom items value i = (-1)%Z \/
    (i <= OutputPage.findDataFrom items value i < i + Z.of_nat (length items))%Z.
Proof.
  induction items as [|it items IH]; intros i Hi; simpl; [now left|].
  destruct (String.eqb (snd it) value); [right; lia|].
  destruct (IH (i + 1)%Z ltac:(lia)) as [H|H]; [now left|right; lia].
Qed.

Lemma findDataFrom_found (items : list (QString * QString)) (value : QString) :
  forall i,
    (i >= 0)%Z ->
    OutputPage.findDataFrom items value i <> (-1)%Z ->
    exists it,
      items !! Z.to_nat (OutputPage.findDataFrom items value i - i) = Some it /\
      snd it = value /\ value ∈ snd <$> items.
Proof.
  induction items as [|it items IH]; intros i Hi Hfound; simpl in *; [congruence|].
  destruct (String.eqb_spec (snd it) value) as [Heq|Hne].
  - exists it. rewrite Z.sub_diag. simpl. repeat split; auto.
    rewrite <- Heq. now left.
  - destruct (IH (i + 1)%Z ltac:(lia) Hfound) as (x & Hx & Hv & Hin).
    exists x. split; [|split; [exact Hv|now right]].
    pose proof (findDataFrom_range items value (i + 1)%Z ltac:(lia)) as [H|H];
      [congruence|].
    replace (Z.to_nat (OutputPage.findDataFrom items value (i + 1) - i))
      with (S (Z.to_nat (OutputPage.findDataFrom items value (i + 1) - (i + 1))))
      by lia.
    exact Hx.
Qed.

Lemma findDataFrom_missing (items : list (QString * QString)) (value : QString) :
  forall i,
    value ∉ snd <$> items -> OutputPage.findDataFrom items value i = (-1)%Z.
Proof.
  induction items as [|it items IH]; intros i Hnot; simpl; [reflexivity|].
  rewrite fmap_cons in Hnot. apply not_elem_of_cons in Hnot as [Hne Hrest].
  destruct (String.eqb_spec (snd it) value); [congruence|]. now apply IH.
Qed.

Lemma findDataFrom_member (items : list (QString * QString)) (value : QString) :
  forall i,
    (i >= 0)%Z -> value ∈ snd <$> items ->
    OutputPage.findDataFrom items value i <> (-1)%Z.
Proof.
  induction items as [|it items IH]; intros i Hi Hin; simpl.
  { inversion Hin. }
  destruct (String.eqb_spec (snd it) value) as [Heq|Hne]; [lia|].
  rewrite fmap_cons in Hin. apply elem_of_cons in Hin as [Heq|Hin]; [congruence|].
  apply IH; [lia|exact Hin].
Qed.

(** X14.  Loading the configuration always leaves the indentation box on one
    of its seven items: a stored value that is the data of an item selects
    that item, and any other stored value selects the first item, [None].
    Saving after loading stores the value back, or [none] when the value was
    not a known one. *)
Theorem OutputPage_loadConfig_valid :
  forall p,
    (0 <= OutputPage.cmbBoxIndentIndex (OutputPage.loadConfig p) < 7)%Z /\
    (OutputPage.optionIndent p ∈ snd <$> OutputPage.indentItems ->
     OutputPage.currentData OutputPage.indentItems
       (OutputPage.cmbBoxIndentIndex (OutputPage.loadConfig p))
     = OutputPage.optionIndent p /\
     OutputPage.optionIndent (OutputPage.saveConfig (OutputPage.loadConfig p))
     = OutputPage.optionIndent p) /\
    (OutputPage.optionIndent p ∉ snd <$> OutputPage.indentItems ->
     OutputPage.cmbBoxIndentIndex (OutputPage.loadConfig p) = 0%Z /\
     OutputPage.optionIndent (OutputPage.saveConfig (OutputPage.loadConfig p))
     = "none").
Proof.
  intros [idx value].
  pose proof (findDataFrom_range OutputPage.indentItems value 0%Z ltac:(lia))
    as Hrange.
  change (Z.of_nat (length OutputPage.indentItems)) with 7%Z in Hrange.
  pose proof (findDataFrom_found OutputPage.indentItems value 0%Z ltac:(lia))
    as Hfound.
  pose proof (findDataFrom_missing OutputPage.indentItems value 0%Z) as Hmissing.
  assert (Hload :
    OutputPage.loadConfig (OutputPage.mkPage idx value)
    = OutputPage.mkPage
        (if (OutputPage.findDataFrom OutputPage.indentItems value 0 =? -1)%Z
         then 0%Z
         else OutputPage.findDataFrom OutputPage.indentItems value 0) value)
    by reflexivity.
  rewrite Hload. clear Hload.
  pose proof (findDataFrom_member OutputPage.indentItems value 0%Z ltac:(lia))
    as Hmember.
  remember (OutputPage.findDataFrom OutputPage.indentItems value 0) as f eqn:Hf
    in *.
  clear Hf. unfold OutputPage.saveConfig. simpl.
  split; [|split].
  - destruct (Z.eqb_spec f (-1)); lia.
  - intros Hin. destruct (Z.eqb_spec f (-1)) as [Hm|Hne].
    + exfalso. now apply Hmember.
    + destruct (Hfound Hne) as (it & Hit & Hv & _).
      rewrite Z.sub_0_r in Hit. unfold OutputPage.currentData.
      destruct (Z.ltb_spec f 0); [lia|]. rewrite Hit. auto.
  - intros Hnot. rewrite (Hmissing Hnot). simpl. auto.
Qed.

Lemma OutputPage_loadConfig_valid_witness :
  OutputPage.cmbBoxIndentIndex
    (OutputPage.loadConfig (OutputPage.mkPage 3 "8 spaces")) = 0%Z /\
  OutputPage.optionIndent
    (OutputPage.saveConfig (OutputPage.loadConfig (OutputPage.mkPage 3 "8 spaces")))
  = "none".
Proof.
  apply (proj2 (proj2 (OutputPage_loadConfig_valid
                         (OutputPage.mkPage 3%Z "8 spaces")))).
  apply (bool_decide_unpack _). vm_compute. exact I.
Defined.

(** X15.  Saving and loading the indentation round-trip: for every item of
    the box, saving the configuration and loading it again selects the same
    item; and restoring the defaults and saving stores [none]. *)
Theorem OutputPage_indent_round_trip :
  forall p,
    ((0 <= OutputPage.cmbBoxIndentIndex p < 7)%Z ->
     OutputPage.cmbBoxIndentIndex (OutputPage.loadConfig (OutputPage.saveConfig p))
     = OutputPage.cmbBoxIndentIndex p /\
     OutputPage.optionIndent (OutputPage.saveConfig p)
     ∈ snd <$> OutputPage.indentItems) /\
    OutputPage.optionIndent (OutputPage.saveConfig (OutputPage.restoreDefaults p))
    = "none" /\
    OutputPage.cmbBoxIndentIndex
      (OutputPage.loadConfig (OutputPage.saveConfig (OutputPage.restoreDefaults p)))
    = 0%Z.
Proof.
  intros [idx value]. split; [|split; reflexivity].
  simpl. intros Hidx.
  assert (H : (idx = 0 \/ idx = 1 \/ idx = 2 \/ idx = 3 \/ idx = 4 \/ idx = 5
               \/ idx = 6)%Z) by lia.
  destruct H as [->|[->|[->|[->|[->|[->| ->]]]]]];
    (split; [reflexivity|apply (bool_decide_unpack _); vm_compute; exact I]).
Qed.

Lemma OutputPage_indent_round_trip_witness :
  OutputPage.cmbBoxIndentIndex
    (OutputPage.loadConfig (OutputPage.saveConfig (OutputPage.mkPage 6 "2")))
  = 6%Z /\
  OutputPage.optionIndent (OutputPage.saveConfig (OutputPage.mkPage 6 "2"))
  ∈ snd <$> OutputPage.indentItems.
Proof.
  apply (proj1 (OutputPage_indent_round_trip (OutputPage.mkPage 6%Z "2"))).
  simpl. lia.
Defined.

(** ** Double clicks on the rows of a batch *)

Lemma itemAt_updateItem_same f ptr :
  forall t item,
    itemAt t ptr = Some item ->
    itemAt (updateItem f ptr t) ptr
    = Some (TreeNode (f (data item)) (isEnabled item) (checkState item)
              (isFolder item) (childrenList item)).
Proof.
  induction ptr as [|i ptr IH]; intros t item Hitem; simpl in *.
  - now inversion Hitem.
  - rewrite list_lookup_alter, decide_True by reflexivity.
    destruct (childrenList t !! i) as [c|]; [|discriminate]. simpl.
    now apply IH.
Qed.

Lemma dispatched_job_file env w w' jobs job :
  onStart env w = (w', Dispatched jobs) -> job ∈ jobs ->
  exists item,
    itemAt (m_model w') (treeItem job) = Some item /\
    isFolder item = false /\
    data item = mkData (inputPath job) "" (sizeBefore (data item)) 0 0 Pending "".
Proof.
  intros Hstart Hjob.
  apply onStart_Dispatched in Hstart as (_ & _ & _ & -> & Hmodel).
  unfold completedJobs in Hjob.
  apply list_elem_of_fmap in Hjob as (job0 & -> & Hjob0).
  unfold builtJobs in Hjob0.
  apply genCleanData_job_visited in Hjob0 as (item & Hv & Hf & Hpath).
  simpl in Hv. rewrite <- Hmodel in Hv.
  destruct (resetTreeData_visited env _ _ _ _ Hv (m_model w) Hmodel Hf) as [d0 Hd0].
  exists item. simpl. split; [now apply Visited_itemAt|]. split; [exact Hf|].
  rewrite Hpath, Hd0. reflexivity.
Qed.

(** X16.  Double clicks on the row of a dispatched job.  Before its result
    has come, the size-before cell opens the input file, the size-after cell
    does nothing, and the status cell shows an empty status text.  After an
    Error result the status cell shows the error message and the size-after
    cell still does nothing; after an Ok result the status cell does nothing
    and the size-after cell opens the output file of the result, when it has
    one; after a Warning the status cell shows the warning and the size-after
    cell opens the output file. *)
Theorem onDoubleClick_dispatched_row :
  forall env w w' jobs job progress,
    onStart env w = (w', Dispatched jobs) -> job ∈ jobs ->
    (onDoubleClick w' (mkQModelIndex true ColumnSizeBefore (Some (treeItem job)))
     = OpenUrl (inputPath job) /\
     onDoubleClick w' (mkQModelIndex true ColumnSizeAfter (Some (treeItem job)))
     = NoAction /\
     onDoubleClick w' (mkQModelIndex true ColumnStatus (Some (treeItem job)))
     = StatusInfo "") /\
    (forall msg,
       onDoubleClick
         (onResultReadyAt w' progress (OutputError msg (treeItem job)))
         (mkQModelIndex true ColumnStatus (Some (treeItem job)))
       = StatusInfo msg /\
       onDoubleClick
         (onResultReadyAt w' progress (OutputError msg (treeItem job)))
         (mkQModelIndex true ColumnSizeAfter (Some (treeItem job)))
       = NoAction) /\
    (forall okd,
       onDoubleClick
         (onResultReadyAt w' progress (OutputOk okd (treeItem job)))
         (mkQModelIndex true ColumnStatus (Some (treeItem job)))
       = NoAction /\
       onDoubleClick
         (onResultReadyAt w' progress (OutputOk okd (treeItem job)))
         (mkQModelIndex true ColumnSizeAfter (Some (treeItem job)))
       = (if QStr.isEmpty (okOutputPath okd) then NoAction
          else OpenUrl (okOutputPath okd))) /\
    (forall okd msg,
       onDoubleClick
         (onResultReadyAt w' progress (OutputWarning okd msg (treeItem job)))
         (mkQModelIndex true ColumnStatus (Some (treeItem job)))
       = StatusInfo msg /\
       onDoubleClick
         (onResultReadyAt w' progress (OutputWarning okd msg (treeItem job)))
         (mkQModelIndex true ColumnSizeAfter (Some (treeItem job)))
       = (if QStr.isEmpty (okOutputPath okd) then NoAction
          else OpenUrl (okOutputPath okd))).
Proof.
  intros env w w' jobs job progress Hstart Hjob.
  destruct (dispatched_job_file env w w' jobs job Hstart Hjob)
    as (item & Hitem & Hf & Hd).
  assert (Hres : forall res,
    outputItem res = treeItem job ->
    itemByIndex (onResultReadyAt w' progress res)
      (mkQModelIndex true ColumnStatus (Some (treeItem job)))
    = Some (TreeNode (applyResult res (data item)) (isEnabled item)
              (checkState item) false (childrenList item))).
  { intros res Hres. unfold itemByIndex, onResultReadyAt. simpl.
    rewrite Hres, (itemAt_updateItem_same _ _ _ item Hitem), Hf. reflexivity. }
  split; [|split; [|split]].
  - unfold onDoubleClick, itemByIndex. simpl. rewrite Hitem, Hf, Hd. simpl. auto.
  - intros msg. unfold onDoubleClick.
    change (itemByIndex ?w (mkQModelIndex true ColumnSizeAfter ?p))
      with (itemByIndex w (mkQModelIndex true ColumnStatus p)).
    rewrite !(Hres (OutputError msg (treeItem job)) eq_refl).
    simpl. rewrite Hd. simpl. auto.
  - intros okd. unfold onDoubleClick.
    change (itemByIndex ?w (mkQModelIndex true ColumnSizeAfter ?p))
      with (itemByIndex w (mkQModelIndex true ColumnStatus p)).
    rewrite !(Hres (OutputOk okd (treeItem job)) eq_refl).
    simpl. split; [reflexivity|]. now destruct (okOutputPath okd).
  - intros okd msg. unfold onDoubleClick.
    change (itemByIndex ?w (mkQModelIndex true ColumnSizeAfter ?p))
      with (itemByIndex w (mkQModelIndex true ColumnStatus p)).
    rewrite !(Hres (OutputWarning okd msg (treeItem job)) eq_refl).
    simpl. split; [reflexivity|]. now destruct (okOutputPath okd).
Qed.

Lemma onDoubleClick_dispatched_row_witness :
  onDoubleClick
    (onResultReadyAt
       (fst (onStart sampleEnv (windowOf Overwrite "" "" "" sampleTree))) 1
       (OutputError "parse error" [0%nat]))
    (mkQModelIndex true ColumnStatus (Some [0%nat]))
  = StatusInfo "parse error" /\
  onDoubleClick
    (onResultReadyAt
       (fst (onStart sampleEnv (windowOf Overwrite "" "" "" sampleTree))) 1
       (OutputError "parse error" [0%nat]))
    (mkQModelIndex true ColumnSizeAfter (Some [0%nat]))
  = NoAction.
Proof.
  apply (proj1 (proj2 (onDoubleClick_dispatched_row sampleEnv
           (windowOf Overwrite "" "" "" sampleTree)
           (fst (onStart sampleEnv (windowOf Overwrite "" "" "" sampleTree)))
           [mkConfig "/x/top.svgz" "/x/top.svg" [0%nat] ["--quiet"]
              CompressorNone 0 false;
            mkConfig "/root/sub/a.svg" "/root/sub/a.svg"
              [1%nat; 0%nat; 0%nat] ["--quiet"] CompressorNone 0 false]
           (mkConfig "/x/top.svgz" "/x/top.svg" [0%nat] ["--quiet"]
              CompressorNone 0 false)
           1%Z ltac:(vm_compute; reflexivity) ltac:(now left)))
           "parse error").
Defined.

(** ** The batch and the tree the user sees *)

(** X17.  The jobs Start dispatches are the checked files of the tree as it
    stands when Start is pressed: the tree items of the batch are, without
    repetition, exactly the places of the tree that hold a file that is
    enabled and checked under folders that are enabled and checked, and each
    job reads the path of its item. *)
Theorem onStart_dispatches_checked_files :
  forall env w w' jobs,
    onStart env w = (w', Dispatched jobs) ->
    NoDup (treeItem <$> jobs) /\
    (forall ptr,
       ptr ∈ treeItem <$> jobs <->
       exists item,
         ptr <> [] /\ itemAt (m_model w) ptr = Some item /\
         isFolder item = false /\
         isEnabled item = true /\ checkState item = Checked /\
         gatesOpen (m_model w) ptr) /\
    (forall job item,
       job ∈ jobs -> itemAt (m_model w) (treeItem job) = Some item ->
       inputPath job = path (data item)).
Proof.
  intros env w w' jobs Hstart.
  apply onStart_Dispatched in Hstart as (_ & _ & _ & -> & _).
  destruct (completedJobs_paths env w) as (Hin & _ & Hitems).
  rewrite Hitems, builtJobs_tree. split; [apply genCleanData_NoDup|]. split.
  - intros ptr. split.
    + intros (job & -> & Hjob)%list_elem_of_fmap.
      apply genCleanData_job_visited in Hjob as (item & Hv & Hf & _).
      apply Visited_spec in Hv as (Hne & Hitem & He & Hc & Hg).
      exists item. auto 10.
    + intros (item & Hne & Hitem & Hf & He & Hc & Hg).
      assert (Hv : Visited (m_model w) ptr item) by (apply Visited_spec; auto).
      destruct (genCleanData_visited_job (settings (saveSettings w))
                  (SavingMethodKey (settings w)) (OutputFolder (settings w))
                  (m_model w) ptr item Hv Hf) as (job & Hjob & <- & _).
      apply list_elem_of_fmap. eauto.
  - intros job item Hjob Hitem. unfold completedJobs in Hjob.
    apply list_elem_of_fmap in Hjob as (job0 & -> & Hjob0). simpl in *.
    rewrite builtJobs_tree in Hjob0.
    apply genCleanData_job_visited in Hjob0 as (item' & Hv & _ & Hpath).
    apply Visited_itemAt in Hv. congruence.
Qed.

Lemma onStart_dispatches_checked_files_witness :
  NoDup [[0%nat]; [1%nat; 0%nat; 0%nat]] /\
  (forall ptr,
     ptr ∈ [[0%nat]; [1%nat; 0%nat; 0%nat]] <->
     exists item,
       ptr <> [] /\ itemAt sampleTree ptr = Some item /\
       isFolder item = false /\
       isEnabled item = true /\ checkState item = Checked /\
       gatesOpen sampleTree ptr).
Proof.
  pose proof (onStart_dispatches_checked_files sampleEnv
                (windowOf Overwrite "" "" "" sampleTree)
                (fst (onStart sampleEnv (windowOf Overwrite "" "" "" sampleTree)))
                [mkConfig "/x/top.svgz" "/x/top.svg" [0%nat] ["--quiet"]
                   CompressorNone 0 false;
                 mkConfig "/root/sub/a.svg" "/root/sub/a.svg"
                   [1%nat; 0%nat; 0%nat] ["--quiet"] CompressorNone 0 false]
                ltac:(vm_compute; reflexivity)) as (Hnd & Hiff & _).
  split; [exact Hnd|exact Hiff].
Defined.

(** ** Results and their rows *)

Lemma deliver_other results :
  forall w q,
    q ∉ (fun r => outputItem (snd r)) <$> results ->
    dataAt (m_model (deliver w results)) q = dataAt (m_model w) q.
Proof.
  unfold deliver. induction results as [|[progress res] results IH];
    intros w q Hq; [reflexivity|].
  rewrite fmap_cons in Hq. apply not_elem_of_cons in Hq as [Hne Hrest].
  simpl. rewrite IH by exact Hrest. rewrite dataAt_onResultReadyAt.
  simpl in Hne. now rewrite decide_False by congruence.
Qed.

Lemma deliver_own results :
  forall w progress res d,
    NoDup ((fun r => outputItem (snd r)) <$> results) ->
    (progress, res) ∈ results ->
    dataAt (m_model w) (outputItem res) = Some d ->
    dataAt (m_model (deliver w results)) (outputItem res)
    = Some (applyResult res d).
Proof.
  induction results as [|[progress0 res0] results IH];
    intros w progress res d Hnd Hin Hd.
  { inversion Hin. }
  rewrite fmap_cons in Hnd. apply NoDup_cons in Hnd as [Hnotin Hnd].
  simpl in Hnotin.
  change (deliver w ((progress0, res0) :: results))
    with (deliver (onResultReadyAt w progress0 res0) results).
  apply elem_of_cons in Hin as [Heq|Hrest].
  - inversion Heq; subst progress0 res0.
    rewrite deliver_other by exact Hnotin.
    rewrite dataAt_onResultReadyAt, decide_True by reflexivity.
    now rewrite Hd.
  - apply (IH _ progress); [exact Hnd|exact Hrest|].
    rewrite dataAt_onResultReadyAt, decide_False; [exact Hd|].
    intros Heq. apply Hnotin. rewrite Heq.
    apply list_elem_of_fmap. now exists (progress, res).
Qed.

(** X18.  Results end up in their own rows.  When the delivered results are
    for different items, then after the delivery, in whatever order, each
    item shows what its own result wrote, and an item no result was delivered
    for, as after a cancellation, is as it was. *)
Theorem deliver_results_to_rows :
  forall w results,
    NoDup ((fun r => outputItem (snd r)) <$> results) ->
    (forall progress res d,
       (progress, res) ∈ results ->
       dataAt (m_model w) (outputItem res) = Some d ->
       dataAt (m_model (deliver w results)) (outputItem res)
       = Some (applyResult res d) /\
       status (applyResult res d) = outputType res) /\
    (forall q,
       q ∉ (fun r => outputItem (snd r)) <$> results ->
       dataAt (m_model (deliver w results)) q = dataAt (m_model w) q).
Proof.
  intros w results Hnd. split.
  - intros progress res d Hin Hd. split.
    + now apply (deliver_own results w progress).
    + apply applyResult_status.
  - intros q. apply deliver_other.
Qed.

Lemma deliver_results_to_rows_witness :
  dataAt
    (m_model
       (deliver (windowOf Overwrite "" "" "" sampleTree)
          [(1%Z, OutputError "parse error" [1%nat; 0%nat; 0%nat])]))
    [0%nat]
  = dataAt sampleTree [0%nat].
Proof.
  apply (proj2 (deliver_results_to_rows (windowOf Overwrite "" "" "" sampleTree)
                  [(1%Z, OutputError "parse error" [1%nat; 0%nat; 0%nat])]
                  ltac:(apply (bool_decide_unpack _); vm_compute; exact I))
           [0%nat]).
  apply (bool_decide_unpack _). vm_compute. exact I.
Defined.
